(** * PoliChat: the chat widget's controller, embedded and verified

    Source: [src/components/PoliChat.tsx].

    The component keeps its state in React [useState] cells and talks to two
    remote collaborators: the session/message store and the answering
    function.  The embedding keeps that shape:

    - JavaScript strings are sequences of UTF-16 code units;
    - the [useState] cells form the record [State];
    - a handler is a program in a small state-and-exception monad over a
      [World]: the cells, the log of what left the component (notifications
      and network requests, oldest first) and the state of the outside world;
    - the outside world (store, answering function, clock, id generator) is
      an arbitrary [Env]: theorems quantify over every way it can answer;
    - a handler is a closure of the render that created it: it receives the
      cells of that render as [snap] and reads [input], [messages] and
      [currentSessionId] from there, while the functional updaters
      ([prev => ...]) read the cells as they are when they run. *)

From Stdlib Require Import List NArith ZArith Bool String Ascii Lia Sorted.
From Stdlib Require DecimalString.
Import ListNotations.

Set Implicit Arguments.

(* ===================================================================== *)
(** ** JavaScript strings *)
(* ===================================================================== *)

Module Js.

(** A UTF-16 code unit and a string of them. *)
Definition code_unit := N.
Definition str := list code_unit.

(** A literal of the source, written as a Rocq string. *)
Definition lit (s : string) : str :=
  List.map N_of_ascii (list_ascii_of_string s).

(** The empty string literal. *)
Definition empty : str := [].

Fixpoint eqb (a b : str) : bool :=
  match a, b with
  | [], [] => true
  | x :: a', y :: b' => N.eqb x y && eqb a' b'
  | _, _ => false
  end.

(** [s.length] and [s.substring(0, n)]. *)
Definition length (s : str) : nat := List.length s.
Definition substring0 (n : nat) (s : str) : str := firstn n s.

(** ECMAScript WhiteSpace and LineTerminator code points, the ones
    [String.prototype.trim] strips. *)
Definition is_whitespace (c : code_unit) : bool :=
  (N.eqb c 9 || N.eqb c 10 || N.eqb c 11 || N.eqb c 12 || N.eqb c 13
   || N.eqb c 32 || N.eqb c 160 || N.eqb c 5760
   || (N.leb 8192 c && N.leb c 8202)
   || N.eqb c 8232 || N.eqb c 8233 || N.eqb c 8239 || N.eqb c 8287
   || N.eqb c 12288 || N.eqb c 65279)%bool.

Fixpoint trimStart (s : str) : str :=
  match s with
  | [] => []
  | c :: s' => if is_whitespace c then trimStart s' else c :: s'
  end.

Definition trimEnd (s : str) : str := rev (trimStart (rev s)).

Definition trim (s : str) : str := trimEnd (trimStart s).

(** Truthiness of a string: only the empty string is falsy. *)
Definition truthy (s : str) : bool :=
  match s with [] => false | _ :: _ => true end.

(** [x || d] for a nullable string [x]. *)
Definition or_else (x : option str) (d : str) : str :=
  match x with
  | Some s => if truthy s then s else d
  | None => d
  end.

(** [a === p] for a string [a] and a nullable string [p]. *)
Definition strict_eq (a : str) (p : option str) : bool :=
  match p with
  | Some b => eqb a b
  | None => false
  end.

(** [n.toString()] for an integer. *)
Definition toString (n : Z) : str :=
  lit (DecimalString.NilZero.string_of_int (Z.to_int n)).

End Js.

Arguments Js.lit : simpl never.

(* ===================================================================== *)
(** ** Data model *)
(* ===================================================================== *)

(** A [Date] is kept as its instant, in milliseconds since the epoch. *)
Definition Date := Z.

(** [interface Message]. *)
Module Message.
Inductive kind := user | bot.
Record t := mk { type : kind; content : Js.str; timestamp : Date }.
End Message.

(** [interface ChatSession]; [isActive] is optional in the interface. *)
Module ChatSession.
Record t := mk {
  id : Js.str;
  title : Js.str;
  lastMessage : Js.str;
  timestamp : Date;
  isActive : option bool
}.

(** [{ ...s, isActive: b }]. *)
Definition with_isActive (b : bool) (s : t) : t :=
  mk (id s) (title s) (lastMessage s) (timestamp s) (Some b).

(** The truthiness test the view applies to [session.isActive]. *)
Definition active (s : t) : bool :=
  match isActive s with Some true => true | _ => false end.
End ChatSession.

(** The authenticated user of [useAuth()]. *)
Module User.
Record t := mk { id : Js.str }.
End User.

(** Rows of the store's [chat_sessions] table, as the component reads them.
    A column the component guards with [||] is nullable here. *)
Module SessionRow.
Record t := mk {
  id : Js.str;
  title : option Js.str;
  created_at : option Date
}.
End SessionRow.

(** Rows of the store's [chat_messages] table. *)
Module MessageRow.
Record t := mk {
  content : option Js.str;
  sender : option Js.str;
  timestamp : option Date
}.
End MessageRow.

(** One entry of the [messages] array sent to the answering function. *)
Module ApiMessage.
Record t := mk {
  id : Js.str;
  text : Js.str;
  sender : Js.str;
  timestamp : Date
}.
End ApiMessage.

(** The [error] member of a store or function response. *)
Module ApiError.
Record t := mk { message : option Js.str }.
End ApiError.

(** What [toast] receives. *)
Module Toast.
Record t := mk {
  title : Js.str;
  description : Js.str;
  variant : option Js.str
}.
End Toast.

(** The [useState] cells of the component. *)
Record State := mkState {
  isOpen : bool;
  isMaximized : bool;
  isHistoryOpen : bool;
  messages : list Message.t;
  chatSessions : list ChatSession.t;
  input : Js.str;
  isLoading : bool;
  currentSessionId : option Js.str
}.

Definition initialState : State :=
  mkState false false false [] [] [] false None.

(* ===================================================================== *)
(** ** The outside world *)
(* ===================================================================== *)

(** The network requests the component issues. *)
Inductive Request :=
| SelectSessions (user_id : Js.str)
    (* from('chat_sessions').select('*').eq('user_id', _)
       .order('created_at', { ascending: false }) *)
| SelectLastMessage (session_id : Js.str)
    (* from('chat_messages').select('*').eq('session_id', _)
       .order('timestamp', { ascending: false }).limit(1) *)
| InsertSession (id title user_id : Js.str)
    (* from('chat_sessions').insert({ id, title, user_id })
       .select('*').single() *)
| SelectMessages (session_id : Js.str)
    (* from('chat_messages').select('*').eq('session_id', _)
       .order('timestamp', { ascending: true }) *)
| InvokeDelete (sessionId : Js.str)
    (* functions.invoke('mistral-chat',
         { body: { action: 'delete_session', sessionId } }) *)
| InvokeChat (msgs : list ApiMessage.t) (context sessionId userId : Js.str).
    (* functions.invoke('mistral-chat',
         { body: { messages, context, sessionId, userId } }) *)

(** The [{ data, error }] pair each request resolves to: [inl] when [error]
    is set, [inr] with [data] otherwise ([None] for a null [data]). *)
Definition Response (r : Request) : Type :=
  match r with
  | SelectSessions _ => ApiError.t + option (list SessionRow.t)
  | SelectLastMessage _ => ApiError.t + option (list MessageRow.t)
  | InsertSession _ _ _ => ApiError.t + SessionRow.t
  | SelectMessages _ => ApiError.t + option (list MessageRow.t)
  | InvokeDelete _ => ApiError.t + unit
  | InvokeChat _ _ _ _ => ApiError.t + option Js.str  (* data.answer *)
  end%type.

(** Everything outside the component, over a state [B] of its own. *)
Record Env (B : Type) := mkEnv {
  serve : forall r : Request, B -> Response r * B;
  uuid : B -> Js.str * B;              (* uuidv4() *)
  clock : B -> Z * B;                  (* new Date(), Date.now() *)
  random : B -> Js.str * B             (* Math.random().toString() *)
}.

(** [const { data } = await ...]: the [data] member alone, null when the
    request came back with an error. *)
Definition data_of {A} (r : ApiError.t + option A) : option A :=
  match r with
  | inl _ => None
  | inr data => data
  end.

(** What leaves the component. *)
Inductive Event :=
| Notify (t : Toast.t)
| Net (r : Request).

Definition is_net (e : Event) : bool :=
  match e with Net _ => true | Notify _ => false end.

Definition is_notify (e : Event) : bool :=
  match e with Notify _ => true | Net _ => false end.

(** What a [throw] carries. *)
Inductive Exn :=
| ApiFailure (e : ApiError.t)
| TypeError
| JsError (message : Js.str).

(* ===================================================================== *)
(** ** Handler programs *)
(* ===================================================================== *)

(** The cells, the log (oldest event first) and the outside world. *)
Record World (B : Type) := mkWorld {
  ui : State;
  log : list Event;
  outside : B
}.

Inductive Outcome (A : Type) :=
| Val (a : A)
| Exc (e : Exn).
Arguments Exc {A} e.

Definition M (B A : Type) : Type := World B -> Outcome A * World B.

Definition ret {B A} (a : A) : M B A := fun w => (Val a, w).

Definition bind {B A C} (m : M B A) (k : A -> M B C) : M B C :=
  fun w =>
    match m w with
    | (Val a, w') => k a w'
    | (Exc e, w') => (Exc e, w')
    end.

Definition throw {B A} (e : Exn) : M B A := fun w => (Exc e, w).

(** [try { m } catch (error) { h }]. *)
Definition try_catch {B A} (m : M B A) (h : Exn -> M B A) : M B A :=
  fun w =>
    match m w with
    | (Val a, w') => (Val a, w')
    | (Exc e, w') => h e w'
    end.

(** [try { m } finally { f }]. *)
Definition finally {B A} (m : M B A) (f : M B unit) : M B A :=
  fun w =>
    match m w with
    | (r, w') =>
        match f w' with
        | (Val _, w'') => (r, w'')
        | (Exc e, w'') => (Exc e, w'')
        end
    end.

Declare Scope handler_scope.
Delimit Scope handler_scope with handler.
Notation "x <- m ;; k" := (bind m (fun x => k))
  (at level 61, m at next level, right associativity) : handler_scope.
Notation "m ;; k" := (bind m (fun _ => k))
  (at level 61, right associativity) : handler_scope.
Local Open Scope handler_scope.

(** [array.map(async x => f x)] run to completion, in order. *)
Fixpoint mapM {B A C} (f : A -> M B C) (l : list A) : M B (list C) :=
  match l with
  | [] => ret []
  | x :: l' => y <- f x ;; ys <- mapM f l' ;; ret (y :: ys)
  end.

(** All results of the callbacks, or nothing when one of them threw. *)
Fixpoint all_fulfilled {A} (l : list (option A)) : option (list A) :=
  match l with
  | [] => Some []
  | None :: _ => None
  | Some x :: l' =>
      match all_fulfilled l' with
      | Some xs => Some (x :: xs)
      | None => None
      end
  end.

(** *** State setters *)

Definition modify {B} (f : State -> State) : M B unit :=
  fun w => (Val tt, mkWorld (f (ui w)) (log w) (outside w)).

Definition with_messages (f : list Message.t -> list Message.t) (s : State) :=
  mkState (isOpen s) (isMaximized s) (isHistoryOpen s) (f (messages s))
          (chatSessions s) (input s) (isLoading s) (currentSessionId s).

Definition with_chatSessions
  (f : list ChatSession.t -> list ChatSession.t) (s : State) :=
  mkState (isOpen s) (isMaximized s) (isHistoryOpen s) (messages s)
          (f (chatSessions s)) (input s) (isLoading s) (currentSessionId s).

Definition with_input (v : Js.str) (s : State) :=
  mkState (isOpen s) (isMaximized s) (isHistoryOpen s) (messages s)
          (chatSessions s) v (isLoading s) (currentSessionId s).

Definition with_isLoading (v : bool) (s : State) :=
  mkState (isOpen s) (isMaximized s) (isHistoryOpen s) (messages s)
          (chatSessions s) (input s) v (currentSessionId s).

Definition with_currentSessionId (v : option Js.str) (s : State) :=
  mkState (isOpen s) (isMaximized s) (isHistoryOpen s) (messages s)
          (chatSessions s) (input s) (isLoading s) v.

Definition setMessages {B} (v : list Message.t) : M B unit :=
  modify (with_messages (fun _ => v)).
Definition updMessages {B} (f : list Message.t -> list Message.t) : M B unit :=
  modify (with_messages f).
Definition setChatSessions {B} (v : list ChatSession.t) : M B unit :=
  modify (with_chatSessions (fun _ => v)).
Definition updChatSessions {B}
  (f : list ChatSession.t -> list ChatSession.t) : M B unit :=
  modify (with_chatSessions f).
Definition setInput {B} (v : Js.str) : M B unit := modify (with_input v).
Definition setIsLoading {B} (v : bool) : M B unit := modify (with_isLoading v).
Definition setCurrentSessionId {B} (v : option Js.str) : M B unit :=
  modify (with_currentSessionId v).

(** *** Effects that leave the component *)

Definition emit {B} (e : Event) : M B unit :=
  fun w => (Val tt, mkWorld (ui w) (log w ++ [e]) (outside w)).

Definition toast {B} (title description : string) (variant : option string)
  : M B unit :=
  emit (Notify (Toast.mk (Js.lit title) (Js.lit description)
                         (option_map Js.lit variant))).

(** [variant: "destructive"]. *)
Definition destructive : option string := Some "destructive"%string.

Section Handlers.

Variable B : Type.
Variable E : Env B.

(** Reading the outside world without a request. *)
Definition ask {A} (f : B -> A * B) : M B A :=
  fun w =>
    let (a, b) := f (outside w) in
    (Val a, mkWorld (ui w) (log w) b).

Definition uuidv4 : M B Js.str := ask (uuid E).
Definition new_Date : M B Date := ask (clock E).
Definition Date_now : M B Z := ask (clock E).
Definition Math_random_toString : M B Js.str := ask (random E).

(** [await] of a request: it is logged, then the outside world answers. *)
Definition call (r : Request) : M B (Response r) :=
  emit (Net r) ;; ask (serve E r).

(** **** fetchChatSessions (source lines 75-133) *)

(** The preview of a session (lines 111-113).  [None] is the [TypeError]
    of [.substring] on a null [content]. *)
Definition preview (messagesData : option (list MessageRow.t))
  : option Js.str :=
  match messagesData with
  | Some (m :: _) =>
      match MessageRow.content m with
      | Some c =>
          Some (Js.substring0 30 c
                ++ (if Nat.ltb 30 (Js.length c) then Js.lit "..."
                    else Js.empty))
      | None => None
      end
  | _ => Some Js.empty
  end.

(** The rest of the callback, once its preview query has resolved
    (lines 111-121). *)
Definition build_session (currentSessionId : option Js.str)
  (sm : SessionRow.t * option (list MessageRow.t))
  : M B (option ChatSession.t) :=
  let (session, messagesData) := sm in
  match preview messagesData with
  | None => ret None
  | Some lastMessage =>
      ts <- match SessionRow.created_at session with
            | Some t => ret t
            | None => new_Date
            end ;;
      ret (Some (ChatSession.mk
                   (SessionRow.id session)
                   (Js.or_else (SessionRow.title session)
                               (Js.lit "Untitled Chat"))
                   lastMessage
                   ts
                   (Some (Js.strict_eq (SessionRow.id session)
                                       currentSessionId))))
  end.

(** The [try] block. *)
Definition fetchChatSessions_body (user : option User.t) (snap : State)
  : M B unit :=
  match user with
  | None => ret tt
  | Some u =>
      r <- call (SelectSessions (User.id u)) ;;
      match r with
      | inl error => throw (ApiFailure error)
      | inr sessionsData =>
          match sessionsData with
          | None | Some [] => setChatSessions []
          | Some rows =>
              datas <- mapM (fun session =>
                               r <- call (SelectLastMessage
                                            (SessionRow.id session)) ;;
                               ret (data_of r)) rows ;;
              built <- mapM (build_session (currentSessionId snap))
                            (combine rows datas) ;;
              match all_fulfilled built with
              | None => throw TypeError
              | Some sessionsWithMessages =>
                  setChatSessions sessionsWithMessages
              end
          end
      end
  end.

Definition fetchChatSessions (user : option User.t) (snap : State)
  : M B unit :=
  try_catch
    (fetchChatSessions_body user snap)
    (fun _ => toast "Error" "Failed to load chat history."
                    destructive).

(** **** createNewChatSession (source lines 136-192) *)

Definition createNewChatSession (user : option User.t) (snap : State)
  : M B unit :=
  try_catch
    (match user with
     | None =>
         toast "Error" "You need to be logged in to create a chat session."
               destructive
     | Some u =>
         newSessionId <- uuidv4 ;;
         r <- call (InsertSession newSessionId (Js.lit "New Chat")
                                  (User.id u)) ;;
         match r with
         | inl error => throw (ApiFailure error)
         | inr data =>
             setCurrentSessionId (Some (SessionRow.id data)) ;;
             setMessages [] ;;
             now <- new_Date ;;
             let newSession :=
               ChatSession.mk (SessionRow.id data) (Js.lit "New Chat")
                              Js.empty now (Some true) in
             updChatSessions (fun prev =>
               let updated := map (ChatSession.with_isActive false) prev in
               newSession :: updated)
         end
     end)
    (fun _ => toast "Error" "Failed to create a new chat."
                    destructive).

(** **** loadChatSession (source lines 195-241) *)

(** One store record in the [Message] shape (lines 223-227). *)
Definition format_message (msg : MessageRow.t) : M B Message.t :=
  ts <- match MessageRow.timestamp msg with
        | Some t => ret t
        | None => new_Date
        end ;;
  ret (Message.mk
         (match MessageRow.sender msg with
          | Some s => if Js.eqb s (Js.lit "user")
                      then Message.user else Message.bot
          | None => Message.bot
          end)
         (Js.or_else (MessageRow.content msg) Js.empty)
         ts).

Definition loadChatSession (sessionId : Js.str)
  (user : option User.t) (snap : State) : M B unit :=
  finally
    (try_catch
       (setIsLoading true ;;
        updChatSessions (fun prev =>
          map (fun session =>
                 ChatSession.with_isActive
                   (Js.eqb (ChatSession.id session) sessionId) session)
              prev) ;;
        r <- call (SelectMessages sessionId) ;;
        match r with
        | inl error => throw (ApiFailure error)
        | inr data =>
            formattedMessages <-
              match data with
              | Some rows => mapM format_message rows
              | None => ret []
              end ;;
            setMessages formattedMessages ;;
            setCurrentSessionId (Some sessionId)
        end)
       (fun _ => toast "Error" "Failed to load chat messages."
                       destructive))
    (setIsLoading false).

(** **** deleteChatSession (source lines 244-296)

    Both re-fetches run [fetchChatSessions] of the same render, hence on
    the same [snap].  The one in the [catch] block is not awaited: its
    request is issued there and its continuation touches only the session
    list and the log, so running it before the [finally] block gives the
    same cells. *)

Definition deleteChatSession (sessionId : Js.str)
  (user : option User.t) (snap : State) : M B unit :=
  finally
    (try_catch
       (setIsLoading true ;;
        updChatSessions (fun prev =>
          filter (fun session =>
                    negb (Js.eqb (ChatSession.id session) sessionId))
                 prev) ;;
        (if Js.strict_eq sessionId (currentSessionId snap)
         then setMessages [] ;; setCurrentSessionId None
         else ret tt) ;;
        r <- call (InvokeDelete sessionId) ;;
        match r with
        | inl error => throw (ApiFailure error)
        | inr _ =>
            toast "Success" "Chat deleted successfully." None ;;
            fetchChatSessions user snap
        end)
       (fun _ =>
          toast "Error" "Failed to delete chat. Please try again."
                destructive ;;
          fetchChatSessions user snap))
    (setIsLoading false).

(** **** handleSend (source lines 299-389)

    The re-fetch of line 377 is the one of the same render and is not
    awaited either; what it writes, the session list and the log, is not
    touched by the [finally] block. *)

(** One prior message in the request shape (lines 334-339). *)
Definition format_for_api (msg : Message.t) : M B ApiMessage.t :=
  d <- Date_now ;;
  r <- Math_random_toString ;;
  ret (ApiMessage.mk
         (Js.toString d ++ r)
         (Message.content msg)
         (match Message.type msg with
          | Message.user => Js.lit "user"
          | Message.bot => Js.lit "bot"
          end)
         (Message.timestamp msg)).

Definition handleSend (user : option User.t) (snap : State) : M B unit :=
  if negb (Js.truthy (Js.trim (input snap))) then ret tt
  else
    let userMessage := Js.trim (input snap) in
    setInput Js.empty ;;
    finally
      (try_catch
         (match user with
          | None =>
              toast "Error" "You need to be logged in to send messages."
                    destructive
          | Some u =>
              sessionId <-
                match currentSessionId snap with
                | Some (c :: s) => ret (c :: s)
                | _ =>
                    fresh <- uuidv4 ;;
                    setCurrentSessionId (Some fresh) ;;
                    ret fresh
                end ;;
              t0 <- new_Date ;;
              let newUserMessage :=
                Message.mk Message.user userMessage t0 in
              updMessages (fun prev => prev ++ [newUserMessage]) ;;
              setIsLoading true ;;
              prior <- mapM format_for_api (messages snap) ;;
              d <- Date_now ;;
              t1 <- new_Date ;;
              let formattedMessages :=
                prior ++ [ApiMessage.mk (Js.toString d) userMessage
                                        (Js.lit "user") t1] in
              response <- call (InvokeChat formattedMessages Js.empty
                                           sessionId (User.id u)) ;;
              match response with
              | inl error =>
                  throw (JsError
                           (Js.or_else (ApiError.message error)
                              (Js.lit "Failed to get a response")))
              | inr None => throw TypeError
              | inr (Some answer) =>
                  t2 <- new_Date ;;
                  let botResponse :=
                    Message.mk Message.bot answer t2 in
                  updMessages (fun prev => prev ++ [botResponse]) ;;
                  fetchChatSessions user snap
              end
          end)
         (fun _ =>
            toast "Error" "Failed to get a response. Please try again."
                  destructive))
      (setIsLoading false).

(** **** Events of the view

    A click or a submit runs the handler of the latest render: its
    closure holds the cells as they are now. *)
Definition dispatch (h : State -> M B unit) : World B -> World B :=
  fun w => snd (h (ui w) w).

End Handlers.

(* ===================================================================== *)
(** ** The view: its own cells, its handlers, what it renders *)
(* ===================================================================== *)

Definition with_isOpen (v : bool) (s : State) :=
  mkState v (isMaximized s) (isHistoryOpen s) (messages s)
          (chatSessions s) (input s) (isLoading s) (currentSessionId s).

Definition with_isMaximized (f : bool -> bool) (s : State) :=
  mkState (isOpen s) (f (isMaximized s)) (isHistoryOpen s) (messages s)
          (chatSessions s) (input s) (isLoading s) (currentSessionId s).

Definition with_isHistoryOpen (v : bool) (s : State) :=
  mkState (isOpen s) (isMaximized s) v (messages s)
          (chatSessions s) (input s) (isLoading s) (currentSessionId s).

Definition setIsOpen {B} (v : bool) : M B unit := modify (with_isOpen v).
Definition setIsMaximized {B} (v : bool) : M B unit :=
  modify (with_isMaximized (fun _ => v)).
Definition updIsMaximized {B} (f : bool -> bool) : M B unit :=
  modify (with_isMaximized f).
Definition setIsHistoryOpen {B} (v : bool) : M B unit :=
  modify (with_isHistoryOpen v).

Section View.

Variable B : Type.
Variable E : Env B.

(** toggleMaximize (source lines 391-393): [setIsMaximized(prev => !prev)]. *)
Definition toggleMaximize (snap : State) : M B unit :=
  updIsMaximized negb.

(** toggleHistory (source lines 395-397): [setIsHistoryOpen(!isHistoryOpen)],
    on the cell of the closure. *)
Definition toggleHistory (snap : State) : M B unit :=
  setIsHistoryOpen (negb (isHistoryOpen snap)).

(** The click on the backdrop (source line 409). *)
Definition backdrop_onClick (snap : State) : M B unit :=
  setIsMaximized false.

(** The click on the chat button (source lines 710-718). *)
Definition chatButton_onClick (snap : State) : M B unit :=
  if isOpen snap then setIsOpen false
  else
    setIsOpen true ;;
    setIsMaximized false ;;
    setIsHistoryOpen false.

(** The change of the input field (source line 685). *)
Definition input_onChange (value : Js.str) (snap : State) : M B unit :=
  setInput value.

(** The effect on [isOpen] and [user] (source lines 55-59). *)
Definition sessions_effect (user : option User.t) (snap : State)
  : M B unit :=
  if (isOpen snap
      && match user with Some _ => true | None => false end)%bool
  then fetchChatSessions E user snap
  else ret tt.

(** A click on the chat button, the render it causes, and the effect that
    render runs: the click always changes [isOpen], one of the two
    dependencies of the effect. *)
Definition press_chat_button (user : option User.t) (w : World B)
  : World B :=
  dispatch (sessions_effect user) (dispatch chatButton_onClick w).

End View.

(** What the component renders, as the conditions of its JSX; all but the
    backdrop and the window are conditions inside the window. *)
Module Shows.

(* line 403 *)
Definition backdrop (s : State) : bool := isOpen s && isMaximized s.

(* line 416 *)
Definition window (s : State) : bool := isOpen s.

(* lines 416, 453, 455 *)
Definition history_sidebar (s : State) : bool :=
  isOpen s && (isMaximized s && isHistoryOpen s).

(* lines 416, 575 *)
Definition history_dropdown (s : State) : bool :=
  isOpen s && (negb (isMaximized s) && isHistoryOpen s).

(* lines 481 and 608: the placeholder of an open history panel *)
Definition no_history (s : State) : bool :=
  Nat.eqb (List.length (chatSessions s)) 0.

(* line 652 *)
Definition welcome (s : State) : bool :=
  Nat.eqb (List.length (messages s)) 0 && negb (isLoading s).

(* line 692: the submit button *)
Definition send_disabled (s : State) : bool :=
  negb (Js.truthy (Js.trim (input s))) || isLoading s.

End Shows.

(* ===================================================================== *)
(** ** A scripted outside world, for concrete runs *)
(* ===================================================================== *)

(** What the store and the answering function reply in a concrete run.  The
    outside state is a tick counter that feeds the clock and the ids. *)
Module Script.

Record t := mk {
  sessions : ApiError.t + option (list SessionRow.t);
  last_message : Js.str -> ApiError.t + option (list MessageRow.t);
  insert_ok : bool;
  messages : ApiError.t + option (list MessageRow.t);
  delete : ApiError.t + unit;
  chat : ApiError.t + option Js.str
}.

Definition failure (m : string) : ApiError.t :=
  ApiError.mk (Some (Js.lit m)).

Definition answer (s : t) (r : Request) (tick : Z) : Response r * Z :=
  match r return Response r * Z with
  | SelectSessions _ => (sessions s, tick)
  | SelectLastMessage i => (last_message s i, tick)
  | InsertSession i ttl _ =>
      (if insert_ok s
       then inr (SessionRow.mk i (Some ttl) (Some tick))
       else inl (failure "insert failed"), tick)
  | SelectMessages _ => (messages s, tick)
  | InvokeDelete _ => (delete s, tick)
  | InvokeChat _ _ _ _ => (chat s, tick)
  end.

Definition env (s : t) : Env Z :=
  mkEnv (answer s)
        (fun tick => (Js.lit "uuid-" ++ Js.toString tick, tick + 1)%Z)
        (fun tick => (tick, tick + 1)%Z)
        (fun tick => (Js.lit "0.5", tick)).

End Script.

Definition alice : User.t := User.mk (Js.lit "alice").

Definition row (i ttl : string) (t : Z) : SessionRow.t :=
  SessionRow.mk (Js.lit i) (Some (Js.lit ttl)) (Some t).

Definition stored (who text : string) (t : Z) : MessageRow.t :=
  MessageRow.mk (Some (Js.lit text)) (Some (Js.lit who)) (Some t).

Definition session (i : string) (a : bool) : ChatSession.t :=
  ChatSession.mk (Js.lit i) (Js.lit "New Chat") Js.empty 0%Z (Some a).

(** The widget, open, showing [l] with [p] as the active-session pointer,
    [ms] as the conversation and [txt] typed in the field. *)
Definition showing (l : list ChatSession.t) (p : option Js.str)
  (ms : list Message.t) (txt : string) : World Z :=
  mkWorld (mkState true false false ms l (Js.lit txt) false p) [] 0%Z.

(** A store and an answering function that work: one session, whose last
    message is 34 characters long, and two stored messages. *)
Definition healthy : Script.t :=
  Script.mk
    (inr (Some [row "s1" "First chat" 5]))
    (fun _ => inr (Some [stored "bot" "0123456789012345678901234567890123" 3]))
    true
    (inr (Some [stored "user" "hi" 1; stored "bot" "hello" 2]))
    (inr tt)
    (inr (Some (Js.lit "hello"))).

(** The store still lists session s1, but its message query and the
    answering function, deletion command included, fail. *)
Definition functions_down : Script.t :=
  Script.mk
    (inr (Some [row "s1" "First chat" 5]))
    (fun _ => inr (Some [stored "user" "hi" 1]))
    true
    (inl (Script.failure "timeout"))
    (inl (Script.failure "timeout"))
    (inl (Script.failure "timeout")).

(** The session query works, every preview query fails. *)
Definition previews_down : Script.t :=
  Script.mk
    (inr (Some [row "s1" "First chat" 5]))
    (fun _ => inl (Script.failure "timeout"))
    true
    (inr (Some []))
    (inr tt)
    (inr (Some (Js.lit "hello"))).

(** Nothing answers. *)
Definition offline : Script.t :=
  Script.mk
    (inl (Script.failure "offline"))
    (fun _ => inl (Script.failure "offline"))
    false
    (inl (Script.failure "offline"))
    (inl (Script.failure "offline"))
    (inl (Script.failure "offline")).

Definition up : Env Z := Script.env healthy.
Definition down : Env Z := Script.env functions_down.
Definition off : Env Z := Script.env offline.

(** Session s1 is open, with one message shown. *)
Definition chatting : World Z :=
  showing [session "s1" true; session "s2" false] (Some (Js.lit "s1"))
          [Message.mk Message.user (Js.lit "hi") 1%Z] EmptyString.

(** No session is open and [txt] is typed in the field. *)
Definition typing (txt : string) : World Z := showing [] None [] txt.

(* ===================================================================== *)
(** ** Vocabulary of the statements *)
(* ===================================================================== *)

(** Blank input: empty, or white space only. *)
Definition blank (s : Js.str) : bool := forallb Js.is_whitespace s.

(** The world a program leaves behind. *)
Definition run {B A} (m : M B A) (w : World B) : World B := snd (m w).

(** [m] never breaks [P] on the cells. *)
Definition preserves {B A} (P : State -> Prop) (m : M B A) : Prop :=
  forall w, P (ui w) -> P (ui (run m w)).

(** [m] returns normally and leaves the cells alone. *)
Definition quiet {B A} (m : M B A) : Prop :=
  forall w, exists a w', m w = (Val a, w') /\ ui w' = ui w.

Definition ids (l : list ChatSession.t) : list Js.str :=
  map ChatSession.id l.

Definition row_ids (l : list SessionRow.t) : list Js.str :=
  map SessionRow.id l.

(** The sessions the view renders as active. *)
Definition actives (s : State) : list ChatSession.t :=
  filter ChatSession.active (chatSessions s).

Definition at_most_one_active (s : State) : Prop :=
  List.length (actives s) <= 1.

Definition active_is_current (s : State) : Prop :=
  forall x, In x (chatSessions s) -> ChatSession.active x = true ->
            currentSessionId s = Some (ChatSession.id x).

(** The marking of the list by [loadChatSession] (lines 200-205). *)
Definition mark (sessionId : Js.str) (l : list ChatSession.t) :=
  map (fun session =>
         ChatSession.with_isActive
           (Js.eqb (ChatSession.id session) sessionId) session) l.

(** The filtering of the list by [deleteChatSession] (line 252). *)
Definition without (sessionId : Js.str) (l : list ChatSession.t) :=
  filter (fun session => negb (Js.eqb (ChatSession.id session) sessionId)) l.

(** The clearing of the conversation by [deleteChatSession] when the deleted
    session is the one of its closure (lines 255-258). *)
Definition cleared_if_current (sessionId : Js.str) (snap s : State) : State :=
  if Js.strict_eq sessionId (currentSessionId snap)
  then with_currentSessionId None (with_messages (fun _ => []) s)
  else s.

(** The pointer of the closure [snap] is still the pointer, and every
    active entry carries it. *)
Definition in_step (snap s : State) : Prop :=
  currentSessionId s = currentSessionId snap /\ active_is_current s.

(** [!sessionId] in [handleSend]. *)
Definition no_session (p : option Js.str) : bool :=
  match p with Some (_ :: _) => false | _ => true end.

(** The notifications of the failure paths. *)
Definition error_toast (description : string) : Event :=
  Notify (Toast.mk (Js.lit "Error") (Js.lit description)
                   (Some (Js.lit "destructive"))).

(** The user message [handleSend] appends for the typed text [txt]. *)
Definition sent_at (txt : Js.str) (t : Date) : Message.t :=
  Message.mk Message.user (Js.trim txt) t.

(** A store record and the message it is shown as. *)
Definition shown_as (r : MessageRow.t) (m : Message.t) : Prop :=
  Message.type m = (match MessageRow.sender r with
                    | Some s => if Js.eqb s (Js.lit "user")
                                then Message.user else Message.bot
                    | None => Message.bot
                    end)
  /\ Message.content m = Js.or_else (MessageRow.content r) Js.empty
  /\ (forall t, MessageRow.timestamp r = Some t -> Message.timestamp m = t).

(** The store returned [rows] oldest first, each with its timestamp. *)
Definition oldest_first (rows : list MessageRow.t) : Prop :=
  exists ts, map MessageRow.timestamp rows = map Some ts /\ Sorted Z.le ts.

(** [data || []]. *)
Definition rows_of {A} (data : option (list A)) : list A :=
  match data with Some rows => rows | None => [] end.

Section Vocabulary.

Variable B : Type.
Variable E : Env B.

(** [d] is what the store answered to [r] at some moment. *)
Definition answered (r : Request) (d : Response r) : Prop :=
  exists b, fst (serve E r b) = d.

(** The entry [fetchChatSessions] builds from a store row, for the pointer
    [cur] of its closure. *)
Definition built_from (cur : option Js.str)
  (r : SessionRow.t) (s : ChatSession.t) : Prop :=
  ChatSession.id s = SessionRow.id r
  /\ ChatSession.title s =
       Js.or_else (SessionRow.title r) (Js.lit "Untitled Chat")
  /\ ChatSession.isActive s = Some (Js.strict_eq (SessionRow.id r) cur)
  /\ exists d, answered (SelectLastMessage (SessionRow.id r)) d
               /\ preview (data_of d) = Some (ChatSession.lastMessage s).

(** The rows a session query brings back when the outside world is in
    state [b]: none when it fails or has no data. *)
Definition fetched (u : User.t) (b : B) : list SessionRow.t :=
  match fst (serve E (SelectSessions (User.id u)) b) with
  | inr (Some rows) => rows
  | _ => []
  end.

(** Session ids are unique in whatever list the store returns. *)
Definition store_ids_unique : Prop :=
  forall uid b rows,
    fst (serve E (SelectSessions uid) b) = inr (Some rows) ->
    NoDup (row_ids rows).

(** The operations of the controller, as the view triggers them. *)
Inductive Op :=
| ListSessions
| CreateSession
| LoadSession (id : Js.str)
| DeleteSession (id : Js.str)
| Send.

Definition handler (user : option User.t) (op : Op) : State -> M B unit :=
  match op with
  | ListSessions => fetchChatSessions E user
  | CreateSession => createNewChatSession E user
  | LoadSession id => loadChatSession E id user
  | DeleteSession id => deleteChatSession E id user
  | Send => handleSend E user
  end.

Definition step (user : option User.t) (op : Op) (w : World B) : World B :=
  dispatch (handler user op) w.

(** The runs on which an optimistic update is followed through: the
    messages of a loaded session arrive; the deleted session is not the
    active one, or the re-fetch does not bring it back; a send starts from
    a pointer that is not the empty string. *)
Definition follows_through (user : option User.t) (op : Op) (w : World B)
  : Prop :=
  match op with
  | LoadSession id =>
      exists data,
        fst (serve E (SelectMessages id) (outside w)) = inr data
  | DeleteSession id =>
      currentSessionId (ui w) <> Some id
      \/ forall u,
           user = Some u ->
           ~ In id (row_ids
                      (fetched u (snd (serve E (InvokeDelete id)
                                             (outside w)))))
  | Send => currentSessionId (ui w) <> Some []
  | _ => True
  end.

End Vocabulary.

(** *** More vocabulary, for the paths the statements above leave out *)

(** [m] returns normally and leaves the cells and the log alone. *)
Definition mute {B A} (m : M B A) : Prop :=
  forall w, exists a w', m w = (Val a, w') /\ ui w' = ui w /\ log w' = log w.

(** [m] lets no exception out. *)
Definition returns {B} (m : M B unit) : Prop :=
  forall w, exists w', m w = (Val tt, w').

(** The three cells of the view. *)
Definition view_of (s : State) : bool * bool * bool :=
  (isOpen s, isMaximized s, isHistoryOpen s).

(** The five cells of the conversation. *)
Definition conversation_of (s : State)
  : list Message.t * list ChatSession.t * Js.str * bool * option Js.str :=
  (messages s, chatSessions s, input s, isLoading s, currentSessionId s).

(** The requests of a fetch that got [rows]: the session query of the
    user, then one preview query per row, in the order of the rows. *)
Definition fetch_requests (u : User.t) (rows : list SessionRow.t)
  : list Event :=
  Net (SelectSessions (User.id u))
  :: map (fun r => Net (SelectLastMessage (SessionRow.id r))) rows.

(** The session a send goes to: the one of the pointer, or the generated
    one when the pointer is null or empty. *)
Definition sending_session (p : option Js.str) (fresh : Js.str) : Js.str :=
  match p with
  | Some (c :: s) => c :: s
  | _ => fresh
  end.

(** The [sender] of a message in the request to the answering function. *)
Definition sender_name (k : Message.kind) : Js.str :=
  match k with
  | Message.user => Js.lit "user"
  | Message.bot => Js.lit "bot"
  end.

(** An entry before and after [loadChatSession sessionId]: nothing but the
    flag has changed, and the flag says whether the id is the one asked
    for. *)
Definition reflagged (sessionId : Js.str) (old new : ChatSession.t) : Prop :=
  ChatSession.id new = ChatSession.id old
  /\ ChatSession.title new = ChatSession.title old
  /\ ChatSession.lastMessage new = ChatSession.lastMessage old
  /\ ChatSession.timestamp new = ChatSession.timestamp old
  /\ ChatSession.isActive new
     = Some (Js.eqb (ChatSession.id old) sessionId).

(** The cells while the request of a send is in flight: the input is
    empty, the pointer is on the session the send goes to, the user
    message is at the end of the messages and the loading flag is on. *)
Definition pending_send (s : State) (sid : Js.str) (t0 : Date) : State :=
  with_isLoading true
    (with_messages (fun prev => prev ++ [sent_at (input s) t0])
       (with_currentSessionId (Some sid) (with_input Js.empty s))).

Definition success_toast (description : string) : Event :=
  Notify (Toast.mk (Js.lit "Success") (Js.lit description) None).

Definition is_chat_request (e : Event) : bool :=
  match e with
  | Net (InvokeChat _ _ _ _) => true
  | _ => false
  end.

(** The first and the last code unit of a string, when it has one. *)
Definition first_unit (s : Js.str) : option Js.code_unit := hd_error s.
Definition last_unit (s : Js.str) : option Js.code_unit := hd_error (rev s).

Definition visible (c : option Js.code_unit) : Prop :=
  exists x, c = Some x /\ Js.is_whitespace x = false.

Section Vocabulary2.

Variable B : Type.
Variable E : Env B.

(** The operations that show the spinner while they run. *)
Definition shows_progress (op : Op) (s : State) : bool :=
  match op with
  | LoadSession _ | DeleteSession _ => true
  | Send => negb (blank (input s))
  | _ => false
  end.

(** The handlers of the view, as events. *)
Inductive ViewEvent :=
| ToggleMaximize
| ToggleHistory
| ClickBackdrop
| ClickChatButton
| Type_ (value : Js.str).

Definition view_handler (ev : ViewEvent) : State -> M B unit :=
  match ev with
  | ToggleMaximize => toggleMaximize (B:=B)
  | ToggleHistory => toggleHistory (B:=B)
  | ClickBackdrop => backdrop_onClick (B:=B)
  | ClickChatButton => chatButton_onClick (B:=B)
  | Type_ value => input_onChange (B:=B) value
  end.

Definition view_step (ev : ViewEvent) (w : World B) : World B :=
  dispatch (view_handler ev) w.

End Vocabulary2.

(** *** What one run asks, and what it is answered *)

(** The answer to a preview query. *)
Definition PreviewAnswer : Type :=
  (ApiError.t + option (list MessageRow.t))%type.

(** The answer has a first row and that row has no content: the callback
    of the row throws on it (line 112, [.substring] of null). *)
Definition no_content (a : PreviewAnswer) : bool :=
  match data_of a with
  | Some (m :: _) =>
      match MessageRow.content m with
      | Some _ => false
      | None => true
      end
  | _ => false
  end.

(** The entry [s] is the one of the row, and its preview is what the
    specification says of the answer the preview query of the row got:
    for a last message with content [c], the content itself when it has
    at most 30 characters, its first 30 characters and an ellipsis when it
    has more.  Without a last message, the answer being an error, null or
    an empty list, the preview is empty. *)
Definition previewed (ra : SessionRow.t * PreviewAnswer) (s : ChatSession.t)
  : Prop :=
  ChatSession.id s = SessionRow.id (fst ra)
  /\ match data_of (snd ra) with
     | Some (m :: _) =>
         exists c,
           MessageRow.content m = Some c
           /\ (Js.length c <= 30 -> ChatSession.lastMessage s = c)
           /\ (30 < Js.length c ->
               ChatSession.lastMessage s
               = Js.substring0 30 c ++ Js.lit "...")
     | _ => ChatSession.lastMessage s = Js.empty
     end.

(** An entry whose preview query came back with an error has an empty
    preview. *)
Definition failed_preview_is_empty
  (ra : SessionRow.t * PreviewAnswer) (s : ChatSession.t) : Prop :=
  ChatSession.id s = SessionRow.id (fst ra)
  /\ forall error, snd ra = inl error -> ChatSession.lastMessage s = Js.empty.

Section Answers.

Variable B : Type.
Variable E : Env B.

(** The rows with the answers their preview queries get, when the queries
    are asked in the order of the rows, the first one with the outside
    world in state [b], each of the others in the state the one before
    left. *)
Fixpoint preview_answers (rows : list SessionRow.t) (b : B)
  : list (SessionRow.t * PreviewAnswer) :=
  match rows with
  | [] => []
  | r :: rows' =>
      (r, fst (serve E (SelectLastMessage (SessionRow.id r)) b))
      :: preview_answers rows'
           (snd (serve E (SelectLastMessage (SessionRow.id r)) b))
  end.

(** The rows of a fetch by [u] that starts with the outside world in
    state [b], with the answers of its own preview queries: they follow
    its session query. *)
Definition fetch_answers (u : User.t) (b : B)
  : list (SessionRow.t * PreviewAnswer) :=
  preview_answers (fetched E u b)
                  (snd (serve E (SelectSessions (User.id u)) b)).

(** What makes the [try] block of that fetch throw: its session query
    comes back with an error (lines 89-92), or the answer to one of its
    preview queries has a first row without content (line 112). *)
Definition fetch_throws (u : User.t) (b : B) : bool :=
  match fst (serve E (SelectSessions (User.id u)) b) with
  | inl _ => true
  | inr _ => existsb (fun ra => no_content (snd ra)) (fetch_answers u b)
  end.

(** The prior messages in the request shape (lines 333-338), built one
    after the other from the outside state [b], with the state they
    leave: each reads the clock and the random source. *)
Fixpoint prior_for_api (ms : list Message.t) (b : B)
  : list ApiMessage.t * B :=
  match ms with
  | [] => ([], b)
  | m :: ms' =>
      let d := clock E b in
      let r := random E (snd d) in
      let rest := prior_for_api ms' (snd r) in
      (ApiMessage.mk
         (Js.toString (fst d) ++ fst r)
         (Message.content m)
         (match Message.type m with
          | Message.user => Js.lit "user"
          | Message.bot => Js.lit "bot"
          end)
         (Message.timestamp m)
       :: fst rest,
       snd rest)
  end.

(** The messages of the request of a send from the cells [s] that starts
    with the outside world in state [b], and the state in which the
    request goes out: the id is generated when the pointer is null or
    empty (lines 316-320), the clock is read for the user message (line
    326), the prior messages are formatted, and the clock is read twice
    for the new message (lines 341-346). *)
Definition send_messages (s : State) (b : B) : list ApiMessage.t * B :=
  let b1 := if no_session (currentSessionId s) then snd (uuid E b) else b in
  let prior := prior_for_api (messages s) (snd (clock E b1)) in
  let d := clock E (snd prior) in
  let t1 := clock E (snd d) in
  (fst prior
   ++ [ApiMessage.mk (Js.toString (fst d)) (Js.trim (input s))
                     (Js.lit "user") (fst t1)],
   snd t1).

(** The request of that send (lines 351-358). *)
Definition send_request (u : User.t) (s : State) (b : B) : Request :=
  InvokeChat (fst (send_messages s b)) Js.empty
             (sending_session (currentSessionId s) (fst (uuid E b)))
             (User.id u).

(** What that request is answered (lines 360-365): an error, null data,
    or data with an answer. *)
Definition chat_answer (u : User.t) (s : State) (b : B)
  : ApiError.t + option Js.str :=
  fst (serve E
         (InvokeChat (fst (send_messages s b)) Js.empty
                     (sending_session (currentSessionId s) (fst (uuid E b)))
                     (User.id u))
         (snd (send_messages s b))).

End Answers.

(** A store and an answering function that work, with no session yet. *)
Definition fresh_account : Script.t :=
  Script.mk
    (inr (Some []))
    (fun _ => inr (Some []))
    true
    (inr (Some []))
    (inr tt)
    (inr (Some (Js.lit "hello"))).

(** The insert is refused, the rest works. *)
Definition insert_refused : Script.t :=
  Script.mk
    (inr (Some [row "s1" "First chat" 5]))
    (fun _ => inr (Some [stored "user" "hi" 1]))
    false
    (inr (Some []))
    (inr tt)
    (inr (Some (Js.lit "hello"))).

(** The session query works; the last message of the session is stored
    without a content. *)
Definition null_content : Script.t :=
  Script.mk
    (inr (Some [row "s1" "First chat" 5]))
    (fun _ => inr (Some [MessageRow.mk None (Some (Js.lit "bot")) (Some 3%Z)]))
    true
    (inr (Some []))
    (inr tt)
    (inr (Some (Js.lit "hello"))).

(** The widget closed, as it is mounted. *)
Definition closed : World Z := mkWorld initialState [] 0%Z.

(** Session s1 is open, maximized, with the history panel out, and some
    text typed. *)
Definition maximized : World Z :=
  mkWorld (mkState true true true
                   [Message.mk Message.user (Js.lit "hi") 1%Z]
                   [session "s1" true; session "s2" false]
                   (Js.lit " draft ") false (Some (Js.lit "s1")))
          [] 0%Z.

(* ===================================================================== *)
(** ** Strings *)
(* ===================================================================== *)

Module JsFacts.

Lemma eqb_refl (a : Js.str) : Js.eqb a a = true.
Proof.
  induction a as [|x a IH]; simpl; [reflexivity|].
  now rewrite N.eqb_refl, IH.
Qed.

Lemma eqb_eq (a b : Js.str) : Js.eqb a b = true <-> a = b.
Proof.
  split; [|intros ->; apply eqb_refl].
  revert b; induction a as [|x a IH]; intros [|y b]; simpl;
    try discriminate; [reflexivity|].
  intros H; apply andb_true_iff in H as [Hx Hr].
  apply N.eqb_eq in Hx; apply IH in Hr; now subst.
Qed.

Lemma strict_eq_true (a : Js.str) (p : option Js.str) :
  Js.strict_eq a p = true <-> p = Some a.
Proof.
  destruct p as [b|]; simpl.
  - rewrite eqb_eq; split; [now intros ->|now intros [= ->]].
  - split; discriminate.
Qed.

Lemma trimStart_blank (s : Js.str) : blank s = true -> Js.trimStart s = [].
Proof.
  induction s as [|c s IH]; simpl; [reflexivity|].
  intros H; apply andb_true_iff in H as [Hc Hs].
  now rewrite Hc; apply IH.
Qed.

Lemma trim_blank (s : Js.str) : blank s = true -> Js.trim s = [].
Proof.
  intros H; unfold Js.trim, Js.trimEnd.
  now rewrite (trimStart_blank s H).
Qed.

(** Trimming at the start keeps a string that has a visible character
    non-blank. *)
Lemma trimStart_visible (s : Js.str) :
  blank s = false ->
  exists c r, Js.trimStart s = c :: r /\ Js.is_whitespace c = false.
Proof.
  induction s as [|c s IH]; simpl; [discriminate|].
  destruct (Js.is_whitespace c) eqn:Hc; simpl.
  - exact IH.
  - intros _; now exists c, s.
Qed.

Lemma blank_app (a b : Js.str) : blank (a ++ b) = blank a && blank b.
Proof. apply forallb_app. Qed.

Lemma blank_rev (s : Js.str) : blank (rev s) = blank s.
Proof.
  induction s as [|c s IH]; simpl; [reflexivity|].
  rewrite blank_app, IH; simpl.
  now rewrite andb_true_r, andb_comm.
Qed.

Lemma trim_visible (s : Js.str) : blank s = false -> Js.trim s <> [].
Proof.
  intros H.
  destruct (trimStart_visible s H) as (c & r & Hs & Hc).
  unfold Js.trim, Js.trimEnd; rewrite Hs.
  assert (Hb : blank (rev (c :: r)) = false).
  { rewrite blank_rev; simpl; now rewrite Hc. }
  destruct (trimStart_visible _ Hb) as (c' & r' & Hs' & _).
  rewrite Hs'; simpl.
  intros Habs; apply app_eq_nil in Habs as [_ Habs]; discriminate.
Qed.

Lemma truthy_trim (s : Js.str) : Js.truthy (Js.trim s) = negb (blank s).
Proof.
  destruct (blank s) eqn:H.
  - now rewrite (trim_blank s H).
  - apply trim_visible in H.
    now destruct (Js.trim s).
Qed.

End JsFacts.

(* ===================================================================== *)
(** ** Running handler programs *)
(* ===================================================================== *)

Section Running.

Variable B : Type.
Variable E : Env B.

Lemma run_bind {A C} (m : M B A) (k : A -> M B C) (w : World B) :
  run (bind m k) w =
  match m w with
  | (Val a, w') => run (k a) w'
  | (Exc _, w') => w'
  end.
Proof. unfold run, bind; now destruct (m w) as [[a|e] w']. Qed.

Lemma bind_val {A C} {m : M B A} (k : A -> M B C) {w w' : World B} {a} :
  m w = (Val a, w') -> bind m k w = k a w'.
Proof. intros H; unfold bind; now rewrite H. Qed.

Lemma bind_exc {A C} {m : M B A} (k : A -> M B C) {w w' : World B} {e} :
  m w = (Exc e, w') -> bind m k w = (Exc e, w').
Proof. intros H; unfold bind; now rewrite H. Qed.

Lemma ask_eq {A} (f : B -> A * B) (w : World B) :
  ask f w = (Val (fst (f (outside w))),
             mkWorld (ui w) (log w) (snd (f (outside w)))).
Proof. unfold ask; now destruct (f (outside w)). Qed.

Lemma call_eq (r : Request) (w : World B) :
  call E r w = (Val (fst (serve E r (outside w))),
                mkWorld (ui w) (log w ++ [Net r])
                        (snd (serve E r (outside w)))).
Proof. unfold call, bind, emit; now rewrite ask_eq. Qed.

(** *** Programs that only look at the outside world *)

Lemma quiet_ret {A} (a : A) : quiet (ret (B:=B) a).
Proof. intros w; now exists a, w. Qed.

Lemma quiet_bind {A C} (m : M B A) (k : A -> M B C) :
  quiet m -> (forall a, quiet (k a)) -> quiet (bind m k).
Proof.
  intros Hm Hk w.
  destruct (Hm w) as (a & w1 & Hr & Hu).
  destruct (Hk a w1) as (c & w2 & Hr' & Hu').
  exists c, w2; unfold bind; rewrite Hr, Hr'; split; congruence.
Qed.

Lemma quiet_ask {A} (f : B -> A * B) : quiet (ask f).
Proof. intros w; rewrite ask_eq; eauto. Qed.

Lemma quiet_emit (e : Event) : quiet (emit (B:=B) e).
Proof. intros w; unfold emit; eauto. Qed.

Lemma quiet_call (r : Request) : quiet (call E r).
Proof. intros w; rewrite call_eq; eauto. Qed.

Lemma quiet_mapM {A C} (f : A -> M B C) (l : list A) :
  (forall x, quiet (f x)) -> quiet (mapM f l).
Proof.
  intros Hf; induction l as [|x l IH]; simpl.
  - apply quiet_ret.
  - apply quiet_bind; [apply Hf|intros y].
    apply quiet_bind; [exact IH|intros ys; apply quiet_ret].
Qed.

Lemma quiet_build_session cur sm : quiet (build_session E cur sm).
Proof.
  destruct sm as [session messagesData]; unfold build_session.
  destruct (preview messagesData); [|apply quiet_ret].
  apply quiet_bind; [|intros; apply quiet_ret].
  destruct (SessionRow.created_at session);
    [apply quiet_ret|apply quiet_ask].
Qed.

Lemma quiet_format_message msg : quiet (format_message E msg).
Proof.
  unfold format_message.
  apply quiet_bind; [|intros; apply quiet_ret].
  destruct (MessageRow.timestamp msg); [apply quiet_ret|apply quiet_ask].
Qed.

Lemma quiet_format_for_api msg : quiet (format_for_api E msg).
Proof.
  unfold format_for_api.
  apply quiet_bind; [apply quiet_ask|intros d].
  apply quiet_bind; [apply quiet_ask|intros r; apply quiet_ret].
Qed.

(** *** Properties of the cells that a program keeps *)

Section Preserving.

Variable P : State -> Prop.

Lemma preserves_ret {A} (a : A) : preserves P (ret (B:=B) a).
Proof. intros w H; exact H. Qed.

Lemma preserves_throw {A} (e : Exn) : preserves P (throw (B:=B) (A:=A) e).
Proof. intros w H; exact H. Qed.

Lemma preserves_bind {A C} (m : M B A) (k : A -> M B C) :
  preserves P m -> (forall a, preserves P (k a)) -> preserves P (bind m k).
Proof.
  intros Hm Hk w H; rewrite run_bind.
  specialize (Hm w H); unfold run in Hm.
  destruct (m w) as [[a|e] w']; simpl in Hm; [now apply Hk|exact Hm].
Qed.

Lemma preserves_try_catch {A} (m : M B A) (h : Exn -> M B A) :
  preserves P m -> (forall e, preserves P (h e)) ->
  preserves P (try_catch m h).
Proof.
  intros Hm Hh w H; unfold run, try_catch.
  specialize (Hm w H); unfold run in Hm.
  destruct (m w) as [[a|e] w']; simpl in *; [exact Hm|now apply Hh].
Qed.

Lemma preserves_finally {A} (m : M B A) (f : M B unit) :
  preserves P m -> preserves P f -> preserves P (finally m f).
Proof.
  intros Hm Hf w H; unfold run, finally.
  specialize (Hm w H); unfold run in Hm.
  destruct (m w) as [r w']; simpl in Hm.
  specialize (Hf w' Hm); unfold run in Hf.
  now destruct (f w') as [[u|e] w''].
Qed.

Lemma preserves_quiet {A} (m : M B A) : quiet m -> preserves P m.
Proof.
  intros Hq w H; destruct (Hq w) as (a & w' & Hr & Hu).
  unfold run; rewrite Hr; simpl; now rewrite Hu.
Qed.

Lemma preserves_modify (f : State -> State) :
  (forall s, P s -> P (f s)) -> preserves P (modify (B:=B) f).
Proof. intros Hf w H; now apply Hf. Qed.

(** The session list is the only cell [fetchChatSessions] writes. *)
Lemma preserves_fetch user snap :
  (forall l s, P s -> P (with_chatSessions (fun _ => l) s)) ->
  preserves P (fetchChatSessions E user snap).
Proof.
  intros HP; unfold fetchChatSessions, fetchChatSessions_body.
  apply preserves_try_catch;
    [|intros; apply preserves_quiet, quiet_emit].
  destruct user as [u|]; [|apply preserves_ret].
  apply preserves_bind; [apply preserves_quiet, quiet_call|].
  intros [error|[[|r rows]|]];
    try apply preserves_throw;
    try (apply preserves_modify; intros; now apply HP).
  apply preserves_bind;
    [apply preserves_quiet, quiet_mapM; intros x;
     apply quiet_bind;
       [apply (quiet_call (SelectLastMessage (SessionRow.id x)))
       |intros a; apply quiet_ret]|].
  intros datas; apply preserves_bind;
    [apply preserves_quiet, quiet_mapM; intros;
     apply quiet_build_session|].
  intros built; destruct (all_fulfilled built);
    [apply preserves_modify; intros; now apply HP
    |apply preserves_throw].
Qed.

End Preserving.

End Running.

(** Programs without a setter. *)
Ltac quiet_tac :=
  repeat first
    [ apply quiet_ret
    | apply quiet_ask
    | apply quiet_emit
    | apply quiet_call
    | apply quiet_build_session
    | apply quiet_format_message
    | apply quiet_format_for_api
    | apply quiet_mapM; intro
    | apply quiet_bind; [|intro]
    | progress unfold toast, uuidv4, new_Date, Date_now,
        Math_random_toString ].

(** A property of the cells that no setter of the program touches: [tac]
    proves it stable under each setter. *)
Ltac frame_tac tac :=
  repeat first
    [ match goal with
      | H : preserves ?P ?m |- preserves ?P ?m => exact H
      end
    | apply preserves_ret
    | apply preserves_throw
    | apply preserves_quiet; solve [quiet_tac]
    | apply preserves_modify; tac
    | apply preserves_bind; [|intro]
    | apply preserves_try_catch; [|intro]
    | apply preserves_finally
    | match goal with
      | |- preserves _ (match ?x with _ => _ end) => destruct x eqn:?
      | |- preserves _ (if ?x then _ else _) => destruct x eqn:?
      end
    | progress unfold setMessages, updMessages, setChatSessions,
        updChatSessions, setInput, setIsLoading, setCurrentSessionId ].

(* ===================================================================== *)
(** ** handleSend: blank input, missing user, the input field *)
(* ===================================================================== *)

Section SendGuards.

Variable B : Type.
Variable E : Env B.

(** C6.  Sending a blank input (empty or white space only) changes
    nothing: every cell, hence the message list, the session list, the
    active-session pointer, the input text and the loading flag, is as
    before, the log has no new notification or request, and the outside
    world was not consulted. *)
Theorem handleSend_blank_is_noop (user : option User.t) (w : World B) :
  blank (input (ui w)) = true ->
  step E user Send w = w.
Proof.
  intros H; unfold step, dispatch, handler, handleSend.
  now rewrite JsFacts.truthy_trim, H.
Qed.

(** What is left of [handleSend] once the input is known not to be
    blank. *)
Lemma handleSend_visible (user : option User.t) (snap : State) :
  blank (input snap) = false ->
  exists rest,
    handleSend E user snap = (setInput Js.empty ;; rest)
    /\ forall P : State -> Prop,
         preserves P (fetchChatSessions E user snap) ->
         (forall f s, P s -> P (with_messages f s)) ->
         (forall v s, P s -> P (with_isLoading v s)) ->
         (no_session (currentSessionId snap) = true ->
          forall v s, P s -> P (with_currentSessionId (Some v) s)) ->
         preserves P rest.
Proof.
  intros H; unfold handleSend.
  rewrite JsFacts.truthy_trim, H; simpl negb; cbv iota.
  eexists; split; [reflexivity|].
  intros P Hf Hm Hk Hc.
  frame_tac ltac:(intros; first [apply Hm|apply Hk|apply Hc];
                  first [assumption|reflexivity]).
Qed.

(** C1.  A send of a non-blank input without an authenticated user
    appends no message, shows the error notification, and issues no
    request: the notification is the only new entry of the log and the
    outside world is left as it was. *)
Theorem handleSend_requires_user (w : World B) :
  blank (input (ui w)) = false ->
  messages (ui (step E None Send w)) = messages (ui w)
  /\ log (step E None Send w) =
       log w ++ [error_toast "You need to be logged in to send messages."]
  /\ filter is_net (log (step E None Send w)) = filter is_net (log w)
  /\ outside (step E None Send w) = outside w.
Proof.
  intros H; unfold step, dispatch, handler, handleSend.
  rewrite JsFacts.truthy_trim, H; simpl.
  repeat split.
  rewrite filter_app; simpl; now rewrite app_nil_r.
Qed.

(** C10.  A send of a non-blank input empties the input field whoever the
    user is and whatever the outside world answers: the field is cleared
    before the user is checked and no later step writes it, so it is empty
    when the handler is done, also without a user and also when the
    request fails. *)
Theorem handleSend_clears_input (user : option User.t) (w : World B) :
  blank (input (ui w)) = false ->
  input (ui (step E user Send w)) = [].
Proof.
  intros H; unfold step, dispatch, handler.
  destruct (handleSend_visible user (ui w) H) as (rest & -> & Hrest).
  change (input (ui (run (setInput Js.empty ;; rest) w)) = []).
  rewrite run_bind; simpl.
  apply (Hrest (fun s => input s = [])); auto.
  apply preserves_fetch; auto.
Qed.

End SendGuards.

(* ===================================================================== *)
(** ** fetchChatSessions *)
(* ===================================================================== *)

Section Fetch.

Variable B : Type.
Variable E : Env B.

(** The preview queries: one answer per row, cells untouched. *)
Lemma preview_queries (rows : list SessionRow.t) (w : World B) :
  exists datas w',
    mapM (fun session =>
            r <- call E (SelectLastMessage (SessionRow.id session)) ;;
            ret (data_of r)) rows w
    = (Val datas, w')
    /\ ui w' = ui w
    /\ Forall2 (fun r d =>
                  exists a,
                    answered E (SelectLastMessage (SessionRow.id r)) a
                    /\ d = data_of a)
               rows datas.
Proof.
  revert w; induction rows as [|r rows IH]; intros w; simpl.
  - exists [], w; repeat split; constructor.
  - assert (Hq : (a <- call E (SelectLastMessage (SessionRow.id r)) ;;
                  ret (data_of a)) w
                 = (Val (data_of
                           (fst (serve E (SelectLastMessage (SessionRow.id r))
                                       (outside w)))),
                    mkWorld (ui w)
                            (log w ++ [Net (SelectLastMessage
                                              (SessionRow.id r))])
                            (snd (serve E (SelectLastMessage
                                             (SessionRow.id r))
                                        (outside w))))).
    { now rewrite (bind_val _ (call_eq E (SelectLastMessage
                                            (SessionRow.id r)) w)). }
    rewrite (bind_val _ Hq).
    match goal with
    | |- context [bind (mapM _ rows) _ ?w1] =>
        destruct (IH w1) as (datas & w' & Hr & Hu & Hall)
    end.
    rewrite (bind_val _ Hr).
    eexists _, _; split; [reflexivity|]; split; [exact Hu|].
    constructor; [|exact Hall].
    eexists; split; [now exists (outside w)|reflexivity].
Qed.

(** One callback: it throws on a null content, and builds the entry from
    the row and the answer otherwise. *)
Lemma build_session_spec cur r d (w : World B) :
  exists o w',
    build_session E cur (r, d) w = (Val o, w')
    /\ ui w' = ui w
    /\ (forall s, o = Some s ->
          ChatSession.id s = SessionRow.id r
          /\ ChatSession.title s =
               Js.or_else (SessionRow.title r) (Js.lit "Untitled Chat")
          /\ ChatSession.isActive s =
               Some (Js.strict_eq (SessionRow.id r) cur)
          /\ preview d = Some (ChatSession.lastMessage s)).
Proof.
  unfold build_session.
  destruct (preview d) as [p|] eqn:Hp.
  - destruct (SessionRow.created_at r) as [t|]; unfold bind, ret.
    + eexists _, _; split; [reflexivity|]; split; [reflexivity|].
      now intros s [= <-].
    + unfold new_Date; rewrite ask_eq.
      eexists _, _; split; [reflexivity|]; split; [reflexivity|].
      now intros s [= <-].
  - exists None, w; repeat split; discriminate.
Qed.

Lemma built_entries cur (rows : list SessionRow.t) :
  forall datas (w : World B),
    Forall2 (fun r d =>
               exists a,
                 answered E (SelectLastMessage (SessionRow.id r)) a
                 /\ d = data_of a)
            rows datas ->
    exists built w',
      mapM (build_session E cur) (combine rows datas) w = (Val built, w')
      /\ ui w' = ui w
      /\ forall l, all_fulfilled built = Some l ->
                   Forall2 (built_from E cur) rows l.
Proof.
  induction rows as [|r rows IH]; intros datas w Hall;
    inversion Hall as [|r' d rows' datas' Hd Hrest]; subst; simpl.
  - exists [], w; repeat split.
    intros l [= <-]; constructor.
  - destruct (build_session_spec cur r d w) as (o & w1 & Hr & Hu & Ho).
    destruct (IH datas' w1 Hrest) as (built & w2 & Hr' & Hu' & Hb).
    rewrite (bind_val _ Hr), (bind_val _ Hr').
    eexists _, _; split; [reflexivity|]; split; [congruence|].
    intros l; simpl.
    destruct o as [s|]; [|discriminate].
    destruct (all_fulfilled built) as [l'|]; [|discriminate].
    intros [= <-]; constructor; [|now apply Hb].
    destruct (Ho s eq_refl) as (Hi & Ht & Ha & Hp).
    destruct Hd as (a & Hans & ->).
    repeat split; try assumption.
    now exists a.
Qed.

(** The [try] block: a throw leaves every cell as it was; a normal return
    without a user leaves the world as it was; a normal return with a user
    has replaced the list by the entries built from the rows fetched. *)
Lemma fetch_body_cases (user : option User.t) (snap : State) (w : World B) :
  match fetchChatSessions_body E user snap w with
  | (Exc _, w') => ui w' = ui w
  | (Val _, w') =>
      match user with
      | None => w' = w
      | Some u =>
          exists l,
            ui w' = with_chatSessions (fun _ => l) (ui w)
            /\ Forall2 (built_from E (currentSessionId snap))
                       (fetched E u (outside w)) l
      end
  end.
Proof.
  unfold fetchChatSessions_body; destruct user as [u|]; [|reflexivity].
  rewrite (bind_val _ (call_eq E (SelectSessions (User.id u)) w)).
  unfold fetched.
  destruct (fst (serve E (SelectSessions (User.id u)) (outside w)))
    as [error|[[|r rows]|]];
    try reflexivity;
    try (exists []; split; [reflexivity|constructor]).
  match goal with
  | |- context [bind (mapM _ (r :: rows)) _ ?w1] =>
      destruct (preview_queries (r :: rows) w1)
        as (datas & w2 & Hq & Hu & Hall)
  end.
  rewrite (bind_val _ Hq).
  destruct (built_entries (currentSessionId snap) w2 Hall)
    as (built & w3 & Hb & Hu' & Hl).
  rewrite (bind_val _ Hb).
  destruct (all_fulfilled built) as [l|]; simpl.
  - exists l; split; [|now apply Hl].
    rewrite Hu', Hu; reflexivity.
  - rewrite Hu', Hu; reflexivity.
Qed.

(** The whole handler: the list is untouched, or it is the entries built
    from the rows fetched. *)
Lemma fetch_outcome (user : option User.t) (snap : State) (w : World B) :
  ui (run (fetchChatSessions E user snap) w) = ui w
  \/ exists u l,
       user = Some u
       /\ ui (run (fetchChatSessions E user snap) w) =
            with_chatSessions (fun _ => l) (ui w)
       /\ Forall2 (built_from E (currentSessionId snap))
                  (fetched E u (outside w)) l.
Proof.
  unfold run, fetchChatSessions, try_catch.
  pose proof (fetch_body_cases user snap w) as H.
  destruct (fetchChatSessions_body E user snap w) as [[[]|e] w'].
  - destruct user as [u|]; [|left; now subst].
    destruct H as (l & Hu & Hl); right; now exists u, l.
  - left; exact H.
Qed.

(** The handler catches what its [try] block throws. *)
Lemma fetch_returns (user : option User.t) (snap : State) (w : World B) :
  exists w', fetchChatSessions E user snap w = (Val tt, w').
Proof.
  unfold fetchChatSessions, try_catch.
  destruct (fetchChatSessions_body E user snap w) as [[[]|e] w'];
    eexists; reflexivity.
Qed.

(** A failing session query makes the [try] block throw. *)
Lemma sessions_query_error (u : User.t) (snap : State) (w : World B) error :
  fst (serve E (SelectSessions (User.id u)) (outside w)) = inl error ->
  fst (fetchChatSessions_body E (Some u) snap w) = Exc (ApiFailure error).
Proof.
  intros H; unfold fetchChatSessions_body.
  rewrite (bind_val _ (call_eq E (SelectSessions (User.id u)) w)), H.
  reflexivity.
Qed.

(** A failing preview query does not: its error is dropped, the entry gets
    the empty preview. *)
Lemma preview_query_error_is_dropped (error : ApiError.t) :
  preview (data_of (inl error)) = Some Js.empty.
Proof. reflexivity. Qed.

(** The two cases of the preview of a message with content [c]. *)
Lemma preview_cases (m : MessageRow.t) (rest : list MessageRow.t) c :
  MessageRow.content m = Some c ->
  (Js.length c <= 30 -> preview (Some (m :: rest)) = Some c)
  /\ (30 < Js.length c ->
      preview (Some (m :: rest))
      = Some (Js.substring0 30 c ++ Js.lit "...")).
Proof.
  intros Hm; unfold preview; rewrite Hm.
  unfold Js.substring0, Js.length; split; intros Hlen.
  - replace (30 <? List.length c) with false
      by (symmetry; apply Nat.ltb_ge; exact Hlen).
    rewrite firstn_all2 by exact Hlen.
    now rewrite app_nil_r.
  - replace (30 <? List.length c) with true
      by (symmetry; apply Nat.ltb_lt; exact Hlen).
    reflexivity.
Qed.

End Fetch.

(* ===================================================================== *)
(** ** The active flag in a list *)
(* ===================================================================== *)

Section ActiveFlags.

Lemma ids_mark sid l : ids (mark sid l) = ids l.
Proof. unfold ids, mark; rewrite map_map; now apply map_ext. Qed.

Lemma active_mark sid l s :
  In s (mark sid l) -> ChatSession.active s = true -> ChatSession.id s = sid.
Proof.
  unfold mark; rewrite in_map_iff; intros (x & <- & _).
  unfold ChatSession.active; simpl.
  destruct (Js.eqb (ChatSession.id x) sid) eqn:Hx; [|discriminate].
  intros _; now apply JsFacts.eqb_eq.
Qed.

Lemma no_active_without_id l x :
  (forall s, In s l -> ChatSession.active s = true -> ChatSession.id s = x) ->
  ~ In x (ids l) ->
  filter ChatSession.active l = [].
Proof.
  induction l as [|s l IH]; intros Hall Hx; simpl; [reflexivity|].
  destruct (ChatSession.active s) eqn:Hs.
  - exfalso; apply Hx; left; apply Hall; [now left|exact Hs].
  - apply IH; [|intros Hin; apply Hx; now right].
    intros s' Hin; apply Hall; now right.
Qed.

(** With unique ids, sessions that can only be active under one id leave
    room for one active session at most. *)
Lemma same_id_at_most_one l x :
  NoDup (ids l) ->
  (forall s, In s l -> ChatSession.active s = true -> ChatSession.id s = x) ->
  List.length (filter ChatSession.active l) <= 1.
Proof.
  induction l as [|s l IH]; intros Hnd Hall; simpl; [lia|].
  inversion Hnd as [|i l' Hnotin Hnd']; subst.
  assert (Hall' : forall s', In s' l -> ChatSession.active s' = true ->
                             ChatSession.id s' = x)
    by (intros s' Hin; apply Hall; now right).
  destruct (ChatSession.active s) eqn:Hs; [|now apply IH].
  rewrite (no_active_without_id l Hall'); [simpl; lia|].
  now rewrite <- (Hall s (or_introl eq_refl) Hs).
Qed.

Lemma no_active_when_none l :
  (forall s, In s l -> ChatSession.active s = true -> False) ->
  filter ChatSession.active l = [].
Proof.
  induction l as [|s l IH]; intros Hall; simpl; [reflexivity|].
  destruct (ChatSession.active s) eqn:Hs.
  - destruct (Hall s (or_introl eq_refl) Hs).
  - apply IH; intros s' Hin; apply Hall; now right.
Qed.

Lemma none_active_inactive l :
  filter ChatSession.active (map (ChatSession.with_isActive false) l) = [].
Proof. induction l as [|s l IH]; simpl; [reflexivity|exact IH]. Qed.

Lemma exactly_one_marked sid l :
  NoDup (ids l) -> In sid (ids l) ->
  exists s, filter ChatSession.active (mark sid l) = [s]
            /\ ChatSession.id s = sid.
Proof.
  induction l as [|x l IH]; intros Hnd Hin; [destruct Hin|].
  inversion Hnd as [|i l' Hnotin Hnd']; subst.
  simpl; unfold ChatSession.active at 1; simpl.
  destruct (Js.eqb (ChatSession.id x) sid) eqn:Hx.
  - apply JsFacts.eqb_eq in Hx.
    exists (ChatSession.with_isActive true x); split; [|exact Hx].
    f_equal; apply no_active_without_id with (x := sid).
    + intros s; apply active_mark.
    + rewrite ids_mark, <- Hx; exact Hnotin.
  - destruct Hin as [Hin|Hin]; [|now apply IH].
    rewrite <- Hin, JsFacts.eqb_refl in Hx; discriminate.
Qed.

Lemma filter_sublist_length {A} (p q : A -> bool) l :
  List.length (filter p (filter q l)) <= List.length (filter p l).
Proof.
  induction l as [|x l IH]; simpl; [lia|].
  destruct (q x), (p x) eqn:Hp; simpl; try rewrite Hp; simpl; lia.
Qed.

Lemma not_in_ids_filter sid l :
  ~ In sid (ids (filter (fun session =>
                           negb (Js.eqb (ChatSession.id session) sid)) l)).
Proof.
  unfold ids; rewrite in_map_iff; intros (s & Hi & Hin).
  apply filter_In in Hin as [_ Hneq].
  rewrite <- Hi, JsFacts.eqb_refl in Hneq; discriminate.
Qed.

End ActiveFlags.

(* ===================================================================== *)
(** ** createNewChatSession and loadChatSession *)
(* ===================================================================== *)

Section CreateAndLoad.

Variable B : Type.
Variable E : Env B.

(** C4.  With a user, when the store accepts the insert (it answers with
    the row [data]), the new session, the one with the id of [data], is
    put in front of the previous list, every other entry is marked
    inactive, the new one is the one and only active entry, the message
    list is empty and the pointer is the new id. *)
Theorem createNewChatSession_success
  (u : User.t) (w : World B) (data : SessionRow.t) :
  fst (serve E (InsertSession (fst (uuid E (outside w)))
                              (Js.lit "New Chat") (User.id u))
             (snd (uuid E (outside w)))) = inr data ->
  exists now,
    chatSessions (ui (step E (Some u) CreateSession w)) =
      ChatSession.mk (SessionRow.id data) (Js.lit "New Chat") Js.empty
                     now (Some true)
      :: map (ChatSession.with_isActive false) (chatSessions (ui w))
    /\ actives (ui (step E (Some u) CreateSession w)) =
         [ChatSession.mk (SessionRow.id data) (Js.lit "New Chat")
                         Js.empty now (Some true)]
    /\ messages (ui (step E (Some u) CreateSession w)) = []
    /\ currentSessionId (ui (step E (Some u) CreateSession w)) =
         Some (SessionRow.id data).
Proof.
  intros H.
  unfold step, dispatch, handler, createNewChatSession, try_catch, uuidv4.
  rewrite (bind_val _ (ask_eq (uuid E) w)).
  match goal with
  | |- context [bind (call E ?r) _ ?w1] =>
      rewrite (bind_val _ (call_eq E r w1))
  end.
  cbn [outside]; rewrite H.
  unfold new_Date, bind, setCurrentSessionId, setMessages, updChatSessions,
    modify; rewrite ask_eq.
  eexists; unfold actives; cbn [snd ui chatSessions with_chatSessions
    messages currentSessionId with_messages with_currentSessionId].
  repeat split.
  cbn [filter]; unfold ChatSession.active at 1; cbn.
  now rewrite none_active_inactive.
Qed.

(** The records of a session, each in the [Message] shape, in the order
    the store gave them. *)
Lemma formatted_messages (rows : list MessageRow.t) (w : World B) :
  exists ms w',
    mapM (format_message E) rows w = (Val ms, w')
    /\ ui w' = ui w
    /\ Forall2 shown_as rows ms.
Proof.
  revert w; induction rows as [|r rows IH]; intros w; simpl.
  - exists [], w; repeat split; constructor.
  - assert (Hr : exists m w1, format_message E r w = (Val m, w1)
                              /\ ui w1 = ui w /\ shown_as r m).
    { unfold format_message, shown_as.
      destruct (MessageRow.timestamp r) as [t|].
      - eexists _, _; split; [reflexivity|]; repeat split.
        now intros t' [= <-].
      - unfold new_Date; rewrite (bind_val _ (ask_eq (clock E) w)).
        eexists _, _; split; [reflexivity|]; repeat split.
        discriminate. }
    destruct Hr as (m & w1 & Hm & Hu & Hs).
    destruct (IH w1) as (ms & w2 & Hms & Hu' & Hall).
    rewrite (bind_val _ Hm), (bind_val _ Hms).
    eexists _, _; split; [reflexivity|]; split; [congruence|].
    now constructor.
Qed.

(** Shown messages carry the timestamps of their records. *)
Lemma shown_timestamps (rows : list MessageRow.t) (ms : list Message.t) :
  Forall2 shown_as rows ms ->
  forall ts, map MessageRow.timestamp rows = map Some ts ->
             map Message.timestamp ms = ts.
Proof.
  induction 1 as [|r m rows ms (_ & _ & Ht) _ IH]; intros [|t ts];
    simpl; try discriminate; [reflexivity|].
  intros [= Hr Hrest]; f_equal; [now apply Ht|now apply IH].
Qed.

(** The two ways [loadChatSession] ends: with the messages of the
    session shown and the pointer moved, or, when the query fails, with
    the list marked and nothing else changed. *)
Lemma load_cells (user : option User.t) (w : World B) (sessionId : Js.str) :
  (exists data ms,
      fst (serve E (SelectMessages sessionId) (outside w)) = inr data
      /\ ui (step E user (LoadSession sessionId) w) =
           with_isLoading false
             (with_currentSessionId (Some sessionId)
                (with_messages (fun _ => ms)
                   (with_chatSessions (mark sessionId)
                      (with_isLoading true (ui w)))))
      /\ Forall2 shown_as (rows_of data) ms)
  \/ (exists error,
        fst (serve E (SelectMessages sessionId) (outside w)) = inl error
        /\ ui (step E user (LoadSession sessionId) w) =
             with_isLoading false
               (with_chatSessions (mark sessionId)
                  (with_isLoading true (ui w)))).
Proof.
  unfold step, dispatch, handler, loadChatSession.
  cbv [finally try_catch bind setIsLoading updChatSessions setMessages
       setCurrentSessionId modify ret throw toast emit].
  cbn [ui log outside].
  rewrite (call_eq E (SelectMessages sessionId)); cbn [ui log outside].
  destruct (fst (serve E (SelectMessages sessionId) (outside w)))
    as [error|data].
  - right; exists error; split; reflexivity.
  - left; exists data.
    destruct data as [rows|].
    + match goal with
      | |- context [mapM _ rows ?w1] =>
          destruct (formatted_messages rows w1) as (ms & w2 & Hm & Hu & Hs)
      end.
      rewrite Hm; cbn [ui snd]; rewrite Hu.
      exists ms; split; [reflexivity|]; split; [reflexivity|exact Hs].
    + exists []; split; [reflexivity|]; split; [reflexivity|constructor].
Qed.

(** The two ways [createNewChatSession] ends: with nothing changed, or
    with the new session in front, active, the others inactive, no
    message shown and the pointer on the new session. *)
Lemma create_cells (user : option User.t) (w : World B) :
  ui (step E user CreateSession w) = ui w
  \/ exists data now,
       ui (step E user CreateSession w) =
         with_chatSessions
           (fun prev =>
              ChatSession.mk (SessionRow.id data) (Js.lit "New Chat")
                             Js.empty now (Some true)
              :: map (ChatSession.with_isActive false) prev)
           (with_messages (fun _ => [])
              (with_currentSessionId (Some (SessionRow.id data)) (ui w))).
Proof.
  unfold step, dispatch, handler, createNewChatSession.
  destruct user as [u|]; [|left; reflexivity].
  cbv [try_catch bind setMessages updChatSessions setCurrentSessionId
       modify ret throw toast emit uuidv4 new_Date].
  rewrite (ask_eq (uuid E)); cbn [ui log outside].
  match goal with
  | |- context [call E ?r ?w1] => rewrite (call_eq E r w1)
  end.
  cbn [ui log outside].
  match goal with
  | |- context [match ?r with inl _ => _ | inr _ => _ end] =>
      destruct r as [error|data]
  end; [left; reflexivity|].
  right; exists data.
  rewrite (ask_eq (clock E)); cbn [ui log outside snd].
  eexists; reflexivity.
Qed.

(** C5.  For a session id of the list (ids being unique), when the store
    answers the message query with [data]: exactly one entry of the list
    is marked active and it has the requested id; the message list is
    replaced by the records of [data], one message per record and in the
    order of the store; that order is by ascending timestamp whenever the
    store returned the records oldest first; the pointer is the requested
    id. *)
Theorem loadChatSession_success
  (user : option User.t) (w : World B) (sessionId : Js.str)
  (data : option (list MessageRow.t)) :
  In sessionId (ids (chatSessions (ui w))) ->
  NoDup (ids (chatSessions (ui w))) ->
  fst (serve E (SelectMessages sessionId) (outside w)) = inr data ->
  (exists s,
      actives (ui (step E user (LoadSession sessionId) w)) = [s]
      /\ ChatSession.id s = sessionId)
  /\ Forall2 shown_as (rows_of data)
             (messages (ui (step E user (LoadSession sessionId) w)))
  /\ (oldest_first (rows_of data) ->
      Sorted Z.le
        (map Message.timestamp
             (messages (ui (step E user (LoadSession sessionId) w)))))
  /\ currentSessionId (ui (step E user (LoadSession sessionId) w)) =
       Some sessionId.
Proof.
  intros Hin Hnd H.
  destruct (load_cells user w sessionId) as [Hrun|(err & Herr & _)];
    [|rewrite H in Herr; discriminate].
  destruct Hrun as (data' & ms & Hd & Hrun & Hs).
  rewrite H in Hd; injection Hd as <-.
  rewrite Hrun.
  unfold actives;
    cbn [chatSessions messages currentSessionId with_isLoading
         with_currentSessionId with_messages with_chatSessions].
  split; [now apply exactly_one_marked|].
  split; [exact Hs|].
  split; [|reflexivity].
  intros (ts & Hts & Hsorted).
  now rewrite (shown_timestamps Hs ts Hts).
Qed.

End CreateAndLoad.

(* ===================================================================== *)
(** ** The list after a fetch *)
(* ===================================================================== *)

Section FetchedList.

Variable B : Type.
Variable E : Env B.

Lemma built_ids cur rows l :
  Forall2 (built_from E cur) rows l -> ids l = row_ids rows.
Proof.
  induction 1 as [|r s rows l (Hi & _) _ IH]; simpl; [reflexivity|].
  now rewrite Hi, IH.
Qed.

Lemma built_source cur rows l s :
  Forall2 (built_from E cur) rows l -> In s l ->
  exists r, In r rows /\ built_from E cur r s.
Proof.
  induction 1 as [|r x rows l Hb _ IH]; intros Hin; [destruct Hin|].
  destruct Hin as [<-|Hin].
  - exists r; split; [now left|exact Hb].
  - destruct (IH Hin) as (r' & Hr & Hb'); exists r'; split;
      [now right|exact Hb'].
Qed.

(** An entry is built active only under the pointer of the closure. *)
Lemma built_active cur rows l s :
  Forall2 (built_from E cur) rows l -> In s l ->
  ChatSession.active s = true -> cur = Some (ChatSession.id s).
Proof.
  intros Hall Hin Hact.
  destruct (built_source s Hall Hin) as (r & _ & Hi & _ & Ha & _).
  unfold ChatSession.active in Hact; rewrite Ha in Hact.
  destruct (Js.strict_eq (SessionRow.id r) cur) eqn:Hs; [|discriminate].
  apply JsFacts.strict_eq_true in Hs; now rewrite Hi.
Qed.

Lemma fetched_unique u b :
  store_ids_unique E -> NoDup (row_ids (fetched E u b)).
Proof.
  intros Hu; unfold fetched.
  destruct (fst (serve E (SelectSessions (User.id u)) b))
    as [e|[rows|]] eqn:Hr; try constructor.
  exact (Hu _ _ _ Hr).
Qed.

Lemma fetch_at_most_one user snap :
  store_ids_unique E ->
  preserves at_most_one_active (fetchChatSessions E user snap).
Proof.
  intros Hu w H.
  destruct (fetch_outcome E user snap w) as [->|(u & l & _ & -> & Hl)];
    [exact H|].
  unfold at_most_one_active, actives; cbn [chatSessions with_chatSessions].
  apply same_id_at_most_one
    with (x := match currentSessionId snap with Some c => c | None => [] end).
  - rewrite (built_ids Hl); now apply fetched_unique.
  - intros s Hin Hact; now rewrite (built_active s Hl Hin Hact).
Qed.

Lemma fetch_in_step user snap :
  preserves (in_step snap) (fetchChatSessions E user snap).
Proof.
  intros w [Hp Hc].
  destruct (fetch_outcome E user snap w) as [->|(u & l & _ & -> & Hl)];
    [now split|].
  split; [exact Hp|].
  intros s Hin Hact; cbn in Hin |- *.
  now rewrite Hp, (built_active s Hl Hin Hact).
Qed.

Lemma fetch_none_active user snap :
  currentSessionId snap = None ->
  preserves (fun s => actives s = []) (fetchChatSessions E user snap).
Proof.
  intros Hnone w H.
  destruct (fetch_outcome E user snap w) as [->|(u & l & _ & -> & Hl)];
    [exact H|].
  unfold actives; cbn [chatSessions with_chatSessions].
  apply no_active_when_none; intros s Hin Hact.
  pose proof (built_active s Hl Hin Hact) as Habs.
  rewrite Hnone in Habs; discriminate.
Qed.

End FetchedList.

(* ===================================================================== *)
(** ** deleteChatSession *)
(* ===================================================================== *)

Section Delete.

Variable B : Type.
Variable E : Env B.

(** The handler, up to its re-fetch: the list is filtered, the
    conversation is cleared when the deleted session is the one of the
    closure, the deletion is requested, and the re-fetch runs from there,
    on the success path and on the failure path alike. *)
Lemma delete_cells (user : option User.t) (w : World B) (id : Js.str) :
  exists wmid,
    ui wmid = cleared_if_current id (ui w)
                (with_chatSessions (without id)
                   (with_isLoading true (ui w)))
    /\ outside wmid = snd (serve E (InvokeDelete id) (outside w))
    /\ ui (step E user (DeleteSession id) w) =
         with_isLoading false
           (ui (run (fetchChatSessions E user (ui w)) wmid)).
Proof.
  unfold step, dispatch, handler, deleteChatSession, cleared_if_current, run.
  cbv [finally try_catch bind setIsLoading updChatSessions setMessages
       setCurrentSessionId modify ret throw toast emit].
  cbn [ui log outside].
  destruct (Js.strict_eq id (currentSessionId (ui w)));
    rewrite (call_eq E (InvokeDelete id)); cbn [ui log outside];
    destruct (fst (serve E (InvokeDelete id) (outside w))) as [error|[]];
    cbn [fst snd ui log outside];
    match goal with
    | |- context [fetchChatSessions E user (ui w) ?w1] =>
        exists w1; destruct (fetch_returns E user (ui w) w1) as (w2 & ->)
    end;
    repeat split.
Qed.

(** C3, as the code has it.  After [deleteChatSession id] is done, its
    re-fetch included: a session with that id is in the list only if the
    re-fetch brought it back, that is, only if the store, asked after the
    deletion request, still returned a row with that id; and if the
    session was the active one, the message list is empty and the pointer
    is null. *)
Theorem deleteChatSession_outcome
  (user : option User.t) (w : World B) (id : Js.str) :
  (In id (ids (chatSessions (ui (step E user (DeleteSession id) w)))) ->
   exists u,
     user = Some u
     /\ In id (row_ids
                 (fetched E u
                    (snd (serve E (InvokeDelete id) (outside w))))))
  /\ (currentSessionId (ui w) = Some id ->
      messages (ui (step E user (DeleteSession id) w)) = []
      /\ currentSessionId (ui (step E user (DeleteSession id) w)) = None).
Proof.
  destruct (delete_cells user w id) as (wmid & Hu & Ho & ->).
  destruct (fetch_outcome E user (ui w) wmid)
    as [->|(u & l & Huser & -> & Hl)]; rewrite Hu; split.
  - unfold cleared_if_current.
    destruct (Js.strict_eq id (currentSessionId (ui w)));
      cbn [chatSessions with_isLoading with_chatSessions
           with_currentSessionId with_messages];
      intros Hin; destruct (not_in_ids_filter id _ Hin).
  - intros Hcur; unfold cleared_if_current.
    rewrite Hcur; cbn [Js.strict_eq]; rewrite JsFacts.eqb_refl.
    split; reflexivity.
  - cbn [chatSessions with_isLoading with_chatSessions].
    intros Hin; exists u; split; [exact Huser|].
    now rewrite <- Ho, <- (built_ids Hl).
  - intros Hcur; unfold cleared_if_current.
    rewrite Hcur; cbn [Js.strict_eq]; rewrite JsFacts.eqb_refl.
    split; reflexivity.
Qed.

End Delete.

(* ===================================================================== *)
(** ** The active flag across the operations *)
(* ===================================================================== *)

Section ActiveInvariant.

Variable B : Type.
Variable E : Env B.

Lemma in_without sid l x : In x (without sid l) -> In x l.
Proof. unfold without; intros H; now apply filter_In in H. Qed.

Lemma none_active_is_current s : actives s = [] -> active_is_current s.
Proof.
  intros Hnone x Hin Hact.
  assert (Hx : In x (actives s)) by (apply filter_In; now split).
  rewrite Hnone in Hx; destruct Hx.
Qed.

Lemma null_pointer_none_active s :
  active_is_current s -> currentSessionId s = None -> actives s = [].
Proof.
  intros Hc Hnone; apply no_active_when_none; intros x Hin Hact.
  rewrite (Hc x Hin Hact) in Hnone; discriminate.
Qed.

(** At most one active entry, operation by operation. *)
Lemma step_at_most_one (user : option User.t) (op : Op) (w : World B) :
  NoDup (ids (chatSessions (ui w))) ->
  store_ids_unique E ->
  at_most_one_active (ui w) ->
  at_most_one_active (ui (step E user op w)).
Proof.
  intros Hnd Hu H; destruct op as [| |sid|sid|].
  - exact (fetch_at_most_one user (ui w) Hu w H).
  - destruct (create_cells E user w) as [->|(data & now & ->)];
      [exact H|].
    unfold at_most_one_active, actives;
      cbn [chatSessions with_chatSessions with_messages
           with_currentSessionId filter].
    unfold ChatSession.active at 1; cbn [ChatSession.isActive].
    rewrite none_active_inactive; simpl; lia.
  - assert (Hm : at_most_one_active
                   (with_chatSessions (mark sid) (ui w))).
    { unfold at_most_one_active, actives;
        cbn [chatSessions with_chatSessions].
      apply same_id_at_most_one with (x := sid).
      - now rewrite ids_mark.
      - intros s; apply active_mark. }
    destruct (load_cells E user w sid)
      as [(data & ms & _ & -> & _)|(error & _ & ->)]; exact Hm.
  - destruct (delete_cells E user w sid) as (wmid & Hmid & _ & ->).
    apply (fetch_at_most_one user (ui w) Hu wmid).
    rewrite Hmid; unfold cleared_if_current.
    assert (Hf : List.length (filter ChatSession.active
                                (without sid (chatSessions (ui w)))) <= 1).
    { etransitivity; [apply filter_sublist_length|exact H]. }
    destruct (Js.strict_eq sid (currentSessionId (ui w))); exact Hf.
  - unfold step, dispatch, handler.
    destruct (blank (input (ui w))) eqn:Hb.
    + unfold handleSend; rewrite JsFacts.truthy_trim, Hb; exact H.
    + destruct (handleSend_visible E user (ui w) Hb) as (rest & -> & Hrest).
      change (at_most_one_active
                (ui (run (setInput Js.empty ;; rest) w))).
      rewrite run_bind; cbn [setInput modify].
      apply (Hrest at_most_one_active); auto.
      apply fetch_at_most_one; exact Hu.
Qed.

(** The active entry is the one of the pointer, on the runs that follow
    their optimistic update through. *)
Lemma step_active_is_current
  (user : option User.t) (op : Op) (w : World B) :
  active_is_current (ui w) ->
  follows_through E user op w ->
  active_is_current (ui (step E user op w)).
Proof.
  intros H Hft; destruct op as [| |sid|sid|].
  - apply (@fetch_in_step B E user (ui w) w); now split.
  - destruct (create_cells E user w) as [->|(data & now & ->)];
      [exact H|].
    intros x Hin Hact;
      cbn [chatSessions currentSessionId with_chatSessions with_messages
           with_currentSessionId] in Hin |- *.
    destruct Hin as [<-|Hin]; [reflexivity|].
    apply in_map_iff in Hin as (y & <- & _); discriminate.
  - destruct Hft as (data0 & Hdata).
    destruct (load_cells E user w sid)
      as [(data & ms & _ & -> & _)|(error & Herr & _)];
      [|rewrite Hdata in Herr; discriminate].
    intros x Hin Hact;
      cbn [chatSessions currentSessionId with_chatSessions with_messages
           with_currentSessionId with_isLoading] in Hin |- *.
    now rewrite (active_mark sid _ x Hin Hact).
  - destruct (delete_cells E user w sid) as (wmid & Hmid & Hout & ->).
    destruct (Js.strict_eq sid (currentSessionId (ui w))) eqn:Hs.
    + apply JsFacts.strict_eq_true in Hs.
      destruct Hft as [Hft|Hft]; [destruct (Hft Hs)|].
      assert (Hnone : actives (ui wmid) = []).
      { rewrite Hmid; unfold cleared_if_current, actives.
        rewrite Hs; cbn [Js.strict_eq]; rewrite JsFacts.eqb_refl.
        cbn [chatSessions with_chatSessions with_isLoading
             with_currentSessionId with_messages].
        apply no_active_without_id with (x := sid);
          [|apply not_in_ids_filter].
        intros x Hin Hact; apply in_without in Hin.
        specialize (H x Hin Hact); congruence. }
      apply none_active_is_current.
      destruct (fetch_outcome E user (ui w) wmid)
        as [->|(u & l & Huser & -> & Hl)]; [exact Hnone|].
      unfold actives; cbn [chatSessions with_chatSessions with_isLoading].
      apply no_active_when_none; intros x Hin Hact.
      apply (Hft u Huser).
      rewrite <- Hout, <- (built_ids Hl).
      pose proof (built_active x Hl Hin Hact) as Hx.
      rewrite Hs in Hx; injection Hx as ->.
      unfold ids; now apply in_map.
    + apply (@fetch_in_step B E user (ui w) wmid).
      rewrite Hmid; unfold cleared_if_current; rewrite Hs.
      split; [reflexivity|].
      intros x Hin Hact; apply H; [|exact Hact].
      cbn [chatSessions with_chatSessions with_isLoading] in Hin.
      now apply in_without in Hin.
  - unfold step, dispatch, handler.
    destruct (blank (input (ui w))) eqn:Hb.
    + unfold handleSend; rewrite JsFacts.truthy_trim, Hb; exact H.
    + destruct (handleSend_visible E user (ui w) Hb) as (rest & -> & Hrest).
      change (active_is_current
                (ui (run (setInput Js.empty ;; rest) w))).
      rewrite run_bind; cbn [setInput modify].
      destruct (currentSessionId (ui w)) as [[|c r]|] eqn:Hp.
      * destruct (Hft Hp).
      * apply (Hrest (in_step (ui w))).
        -- apply fetch_in_step.
        -- intros f s Hs; exact Hs.
        -- intros v s Hs; exact Hs.
        -- cbn; discriminate.
        -- split; [reflexivity|exact H].
      * apply none_active_is_current.
        apply (Hrest (fun s => actives s = [])).
        -- apply fetch_none_active; exact Hp.
        -- intros f s Hs; exact Hs.
        -- intros v s Hs; exact Hs.
        -- intros _ v s Hs; exact Hs.
        -- now apply null_pointer_none_active.
Qed.

(** C8, as the code has it.  With session ids unique in the list and in
    what the store returns, every operation leaves at most one entry
    marked active; and the active entry, when there is one, has the id of
    the pointer after the operation, on the runs that follow their
    optimistic update through: every list, create and send (from a
    pointer that is not the empty string), a load whose messages arrive,
    and a delete of a session other than the active one or whose re-fetch
    does not bring the deleted session back. *)
Theorem active_flag_invariant
  (user : option User.t) (op : Op) (w : World B) :
  NoDup (ids (chatSessions (ui w))) ->
  store_ids_unique E ->
  (at_most_one_active (ui w) ->
   at_most_one_active (ui (step E user op w)))
  /\ (active_is_current (ui w) ->
      follows_through E user op w ->
      active_is_current (ui (step E user op w))).
Proof.
  intros Hnd Hu; split.
  - now apply step_at_most_one.
  - apply step_active_is_current.
Qed.

End ActiveInvariant.

(* ===================================================================== *)
(** ** Concrete runs *)
(* ===================================================================== *)

Section Runs.

Lemma scripted_ids_unique (s : Script.t) :
  (forall rows, Script.sessions s = inr (Some rows) ->
                NoDup (row_ids rows)) ->
  store_ids_unique (Script.env s).
Proof. intros H uid b rows Hr; apply H; exact Hr. Defined.

Lemma one_row_unique (r : SessionRow.t) : NoDup (row_ids [r]).
Proof. repeat constructor; intros []. Defined.

(** *** C6 *)

Lemma handleSend_blank_is_noop_witness :
  step up (Some alice) Send (typing "  ") = typing "  ".
Proof. apply handleSend_blank_is_noop; reflexivity. Defined.

(** *** C1 *)

Lemma handleSend_requires_user_witness :
  messages (ui (step up None Send (typing "hello"))) = []
  /\ log (step up None Send (typing "hello")) =
       [error_toast "You need to be logged in to send messages."]
  /\ filter is_net (log (step up None Send (typing "hello"))) = []
  /\ outside (step up None Send (typing "hello")) = 0%Z.
Proof.
  exact (handleSend_requires_user up (typing "hello") eq_refl).
Defined.

(** *** C10 *)

Lemma handleSend_clears_input_witness :
  input (ui (step down (Some alice) Send (typing "hello"))) = [].
Proof. apply handleSend_clears_input; reflexivity. Defined.

(** *** C7 *)

(** C7 as the specification states it fails where a preview query fails:
    the session query is answered, the preview query of the one session
    comes back with an error, and the fetch shows no notification and
    replaces the list shown by its own, in which that session has an
    empty preview. *)
Lemma preview_query_failure_is_silent :
  fetch_answers (Script.env previews_down) alice (outside chatting)
  = [(row "s1" "First chat" 5, inl (Script.failure "timeout"))]
  /\ chatSessions
       (ui (run (fetchChatSessions (Script.env previews_down) (Some alice)
                                   (ui chatting)) chatting))
     = [ChatSession.mk (Js.lit "s1") (Js.lit "First chat") Js.empty 5%Z
                       (Some true)]
  /\ chatSessions
       (ui (run (fetchChatSessions (Script.env previews_down) (Some alice)
                                   (ui chatting)) chatting))
     <> chatSessions (ui chatting)
  /\ filter is_notify
        (log (run (fetchChatSessions (Script.env previews_down) (Some alice)
                                     (ui chatting)) chatting)) = [].
Proof.
  split; [reflexivity|].
  split; [reflexivity|].
  split; [|reflexivity].
  intros H; vm_compute in H; discriminate H.
Qed.

(** *** C4 *)

Lemma createNewChatSession_success_witness :
  exists now,
    chatSessions (ui (step up (Some alice) CreateSession chatting)) =
      ChatSession.mk (Js.lit "uuid-0") (Js.lit "New Chat") Js.empty
                     now (Some true)
      :: map (ChatSession.with_isActive false) (chatSessions (ui chatting))
    /\ actives (ui (step up (Some alice) CreateSession chatting)) =
         [ChatSession.mk (Js.lit "uuid-0") (Js.lit "New Chat") Js.empty
                         now (Some true)]
    /\ messages (ui (step up (Some alice) CreateSession chatting)) = []
    /\ currentSessionId (ui (step up (Some alice) CreateSession chatting)) =
         Some (Js.lit "uuid-0").
Proof.
  exact (createNewChatSession_success up alice chatting
           (data := SessionRow.mk (Js.lit "uuid-0")
                      (Some (Js.lit "New Chat")) (Some 1%Z))
           eq_refl).
Defined.

(** *** C5 *)

Lemma chatting_ids_unique : NoDup (ids (chatSessions (ui chatting))).
Proof.
  repeat constructor; simpl; intuition discriminate.
Defined.

Lemma loadChatSession_success_witness :
  (exists s,
      actives (ui (step up (Some alice) (LoadSession (Js.lit "s2"))
                        chatting)) = [s]
      /\ ChatSession.id s = Js.lit "s2")
  /\ Forall2 shown_as
       [stored "user" "hi" 1; stored "bot" "hello" 2]
       (messages (ui (step up (Some alice) (LoadSession (Js.lit "s2"))
                           chatting)))
  /\ Sorted Z.le
       (map Message.timestamp
            (messages (ui (step up (Some alice)
                                (LoadSession (Js.lit "s2")) chatting))))
  /\ currentSessionId (ui (step up (Some alice) (LoadSession (Js.lit "s2"))
                                chatting)) = Some (Js.lit "s2").
Proof.
  destruct (loadChatSession_success up (Some alice) chatting
              (sessionId := Js.lit "s2")
              (data := Some [stored "user" "hi" 1; stored "bot" "hello" 2]))
    as (Hone & Hshown & Hsorted & Hcur).
  - simpl; auto.
  - exact chatting_ids_unique.
  - reflexivity.
  - split; [exact Hone|].
    split; [exact Hshown|].
    split; [|exact Hcur].
    apply Hsorted; exists [1%Z; 2%Z]; split; [reflexivity|].
    repeat constructor; discriminate.
Defined.

(** *** C3 *)

(** C3 as the specification states it fails where the deletion fails: the
    session is taken off the list, the deletion request comes back with an
    error, and the re-fetch, which finds the session still in the store,
    puts it back. *)
Lemma deleteChatSession_failed_delete_restores :
  In (Js.lit "s1")
     (ids (chatSessions
             (ui (step down (Some alice) (DeleteSession (Js.lit "s1"))
                       chatting)))).
Proof. vm_compute; left; reflexivity. Qed.

Lemma deleteChatSession_outcome_witness :
  messages (ui (step down (Some alice) (DeleteSession (Js.lit "s1"))
                     chatting)) = []
  /\ currentSessionId
       (ui (step down (Some alice) (DeleteSession (Js.lit "s1"))
                 chatting)) = None.
Proof.
  apply (deleteChatSession_outcome down (Some alice) chatting (Js.lit "s1")).
  reflexivity.
Defined.

(** The same run leaves the restored session marked active although
    the pointer is null: the re-fetch compares with the pointer of the
    closure, not with the cleared one. *)
Lemma deleteChatSession_restores_as_active :
  actives (ui (step down (Some alice) (DeleteSession (Js.lit "s1"))
                    chatting))
    = [ChatSession.mk (Js.lit "s1") (Js.lit "First chat") (Js.lit "hi")
                      5%Z (Some true)]
  /\ currentSessionId
       (ui (step down (Some alice) (DeleteSession (Js.lit "s1"))
                 chatting)) = None.
Proof. split; reflexivity. Qed.

(** *** C8 *)

(** C8 as the specification states it fails where a load fails: the
    requested session stays marked active and the pointer stays on the
    session shown before. *)
Lemma loadChatSession_failure_breaks_invariant :
  NoDup (ids (chatSessions (ui chatting)))
  /\ at_most_one_active (ui chatting)
  /\ active_is_current (ui chatting)
  /\ actives (ui (step down (Some alice) (LoadSession (Js.lit "s2"))
                       chatting)) = [session "s2" true]
  /\ currentSessionId
       (ui (step down (Some alice) (LoadSession (Js.lit "s2")) chatting))
     = Some (Js.lit "s1")
  /\ ~ active_is_current
         (ui (step down (Some alice) (LoadSession (Js.lit "s2")) chatting)).
Proof.
  split; [exact chatting_ids_unique|].
  split; [unfold at_most_one_active; simpl; lia|].
  split.
  { intros x [<-|[<-|[]]] Hact; [reflexivity|discriminate]. }
  split; [reflexivity|].
  split; [reflexivity|].
  intros H.
  specialize (H (session "s2" true) (or_intror (or_introl eq_refl))
                eq_refl).
  discriminate.
Qed.

Lemma active_flag_invariant_witness :
  at_most_one_active
    (ui (step up (Some alice) (LoadSession (Js.lit "s2")) chatting))
  /\ active_is_current
       (ui (step up (Some alice) (LoadSession (Js.lit "s2")) chatting)).
Proof.
  assert (Hu : store_ids_unique up).
  { apply scripted_ids_unique; intros rows [= <-]; apply one_row_unique. }
  destruct (@active_flag_invariant Z up (Some alice)
              (LoadSession (Js.lit "s2")) chatting
              chatting_ids_unique Hu)
    as [Hone Hcur].
  split.
  - apply Hone; unfold at_most_one_active; simpl; lia.
  - apply Hcur.
    + intros x [<-|[<-|[]]] Hact; [reflexivity|discriminate].
    + eexists; reflexivity.
Defined.

(** *** C9 *)

(** C9 as the specification states it fails on the code: the request
    fails, and the pointer is the id generated by this very send. *)
Lemma handleSend_failure_leaves_generated_id :
  currentSessionId (ui (typing "hello")) = None
  /\ fst (uuid down (outside (typing "hello"))) = Js.lit "uuid-0"
  /\ Script.chat functions_down = inl (Script.failure "timeout")
  /\ currentSessionId (ui (step down (Some alice) Send (typing "hello")))
     = Some (Js.lit "uuid-0").
Proof. repeat split. Qed.

End Runs.

(* ===================================================================== *)
(** ** Programs that leave the cells and the log alone *)
(* ===================================================================== *)

Section Mute.

Variable B : Type.
Variable E : Env B.

Lemma mute_ret {A} (a : A) : mute (ret (B:=B) a).
Proof. intros w; now exists a, w. Qed.

Lemma mute_bind {A C} (m : M B A) (k : A -> M B C) :
  mute m -> (forall a, mute (k a)) -> mute (bind m k).
Proof.
  intros Hm Hk w.
  destruct (Hm w) as (a & w1 & Hr & Hu & Hl).
  destruct (Hk a w1) as (c & w2 & Hr' & Hu' & Hl').
  exists c, w2; rewrite (bind_val _ Hr), Hr'; repeat split; congruence.
Qed.

Lemma mute_ask {A} (f : B -> A * B) : mute (ask f).
Proof. intros w; rewrite ask_eq; eexists _, _; repeat split. Qed.

Lemma mute_mapM {A C} (f : A -> M B C) (l : list A) :
  (forall x, mute (f x)) -> mute (mapM f l).
Proof.
  intros Hf; induction l as [|x l IH]; simpl.
  - apply mute_ret.
  - apply mute_bind; [apply Hf|intros y].
    apply mute_bind; [exact IH|intros ys; apply mute_ret].
Qed.

Lemma mute_build_session cur sm : mute (build_session E cur sm).
Proof.
  destruct sm as [session messagesData]; unfold build_session.
  destruct (preview messagesData); [|apply mute_ret].
  apply mute_bind; [|intros; apply mute_ret].
  destruct (SessionRow.created_at session); [apply mute_ret|apply mute_ask].
Qed.

Lemma mute_format_message msg : mute (format_message E msg).
Proof.
  unfold format_message.
  apply mute_bind; [|intros; apply mute_ret].
  destruct (MessageRow.timestamp msg); [apply mute_ret|apply mute_ask].
Qed.

(** One prior message of the request: its text, sender and timestamp are
    those of the message shown. *)
Lemma format_for_api_spec (msg : Message.t) (w : World B) :
  exists a w',
    format_for_api E msg w = (Val a, w')
    /\ ui w' = ui w /\ log w' = log w
    /\ ApiMessage.text a = Message.content msg
    /\ ApiMessage.sender a = sender_name (Message.type msg)
    /\ ApiMessage.timestamp a = Message.timestamp msg.
Proof.
  unfold format_for_api, Date_now, Math_random_toString.
  rewrite (bind_val _ (ask_eq (clock E) w)).
  match goal with
  | |- context [bind (ask (random E)) _ ?w1] =>
      rewrite (bind_val _ (ask_eq (random E) w1))
  end.
  eexists _, _; split; [reflexivity|].
  repeat split; now destruct (Message.type msg).
Qed.

Lemma prior_messages_spec (ms : list Message.t) (w : World B) :
  exists prior w',
    mapM (format_for_api E) ms w = (Val prior, w')
    /\ ui w' = ui w /\ log w' = log w
    /\ map ApiMessage.text prior = map Message.content ms
    /\ map ApiMessage.sender prior
       = map (fun m => sender_name (Message.type m)) ms
    /\ map ApiMessage.timestamp prior = map Message.timestamp ms.
Proof.
  revert w; induction ms as [|m ms IH]; intros w; simpl.
  - exists [], w; repeat split.
  - destruct (format_for_api_spec m w)
      as (a & w1 & Ha & Hu & Hl & Ht & Hs & Hts).
    destruct (IH w1) as (prior & w2 & Hp & Hu' & Hl' & Ht' & Hs' & Hts').
    rewrite (bind_val _ Ha), (bind_val _ Hp).
    eexists _, _; split; [reflexivity|].
    simpl; repeat split; congruence.
Qed.

(** The preview queries again, with what they add to the log. *)
Lemma preview_queries_log (rows : list SessionRow.t) (w : World B) :
  exists datas w',
    mapM (fun session =>
            r <- call E (SelectLastMessage (SessionRow.id session)) ;;
            ret (data_of r)) rows w
    = (Val datas, w')
    /\ log w' =
         log w
         ++ map (fun r => Net (SelectLastMessage (SessionRow.id r))) rows.
Proof.
  revert w; induction rows as [|r rows IH]; intros w; simpl.
  - exists [], w; split; [reflexivity|now rewrite app_nil_r].
  - assert (Hq : (a <- call E (SelectLastMessage (SessionRow.id r)) ;;
                  ret (data_of a)) w
                 = (Val (data_of
                           (fst (serve E (SelectLastMessage (SessionRow.id r))
                                       (outside w)))),
                    mkWorld (ui w)
                            (log w ++ [Net (SelectLastMessage
                                              (SessionRow.id r))])
                            (snd (serve E (SelectLastMessage
                                             (SessionRow.id r))
                                        (outside w))))).
    { now rewrite (bind_val _ (call_eq E (SelectLastMessage
                                            (SessionRow.id r)) w)). }
    rewrite (bind_val _ Hq).
    match goal with
    | |- context [bind (mapM _ rows) _ ?w1] =>
        destruct (IH w1) as (datas & w' & Hr & Hl)
    end.
    rewrite (bind_val _ Hr).
    eexists _, _; split; [reflexivity|].
    rewrite Hl; cbn [log]; now rewrite <- app_assoc.
Qed.

(** What the [try] block of a fetch adds to the log: its requests. *)
Lemma fetch_body_log (u : User.t) (snap : State) (w : World B) :
  log (run (fetchChatSessions_body E (Some u) snap) w)
  = log w ++ fetch_requests u (fetched E u (outside w)).
Proof.
  unfold run, fetchChatSessions_body, fetch_requests, fetched.
  rewrite (bind_val _ (call_eq E (SelectSessions (User.id u)) w)).
  destruct (fst (serve E (SelectSessions (User.id u)) (outside w)))
    as [error|[[|r rows]|]]; try reflexivity.
  match goal with
  | |- context [bind (mapM _ (r :: rows)) _ ?w1] =>
      destruct (preview_queries_log (r :: rows) w1) as (datas & w2 & Hq & Hl)
  end.
  rewrite (bind_val _ Hq).
  destruct (mute_mapM (build_session E (currentSessionId snap))
              (combine (r :: rows) datas)
              (mute_build_session (currentSessionId snap)) w2)
    as (built & w3 & Hb & _ & Hl').
  rewrite (bind_val _ Hb).
  assert (Hend : log w3 =
                 log w ++ Net (SelectSessions (User.id u))
                   :: map (fun r0 => Net (SelectLastMessage
                                             (SessionRow.id r0)))
                          (r :: rows)).
  { rewrite Hl', Hl; cbn [log]; now rewrite <- app_assoc. }
  destruct (all_fulfilled built); exact Hend.
Qed.

End Mute.

(* ===================================================================== *)
(** ** fetchChatSessions and the answers it gets *)
(* ===================================================================== *)

Section FetchAnswers.

Variable B : Type.
Variable E : Env B.

Lemma no_content_preview (a : PreviewAnswer) :
  no_content a = match preview (data_of a) with
                 | None => true
                 | Some _ => false
                 end.
Proof.
  unfold no_content, preview.
  destruct (data_of a) as [[|m rest]|]; try reflexivity.
  now destruct (MessageRow.content m).
Qed.

(** An entry with the id of the row and the preview the code computes from
    the answer is an entry as the specification describes it. *)
Lemma previewed_intro (r : SessionRow.t) (a : PreviewAnswer)
  (s : ChatSession.t) :
  ChatSession.id s = SessionRow.id r ->
  preview (data_of a) = Some (ChatSession.lastMessage s) ->
  previewed (r, a) s.
Proof.
  intros Hi Hp; split; [exact Hi|]; cbn [fst snd].
  destruct (data_of a) as [[|m rest]|].
  - cbn [preview] in Hp; congruence.
  - destruct (MessageRow.content m) as [c|] eqn:Hm.
    + exists c; split; [reflexivity|].
      destruct (preview_cases m rest Hm) as [Hshort Hlong].
      split; intros Hlen;
        [rewrite (Hshort Hlen) in Hp|rewrite (Hlong Hlen) in Hp];
        congruence.
    + unfold preview in Hp; rewrite Hm in Hp; discriminate.
  - cbn [preview] in Hp; congruence.
Qed.

(** The preview queries, with the very answers they get. *)
Lemma preview_queries_exact (rows : list SessionRow.t) (w : World B) :
  exists w',
    mapM (fun session =>
            r <- call E (SelectLastMessage (SessionRow.id session)) ;;
            ret (data_of r)) rows w
    = (Val (map (fun ra => data_of (snd ra))
                (preview_answers E rows (outside w))),
       w')
    /\ ui w' = ui w.
Proof.
  revert w; induction rows as [|r rows IH]; intros w; simpl.
  - exists w; split; reflexivity.
  - assert (Hq : (a <- call E (SelectLastMessage (SessionRow.id r)) ;;
                  ret (data_of a)) w
                 = (Val (data_of
                           (fst (serve E (SelectLastMessage (SessionRow.id r))
                                       (outside w)))),
                    mkWorld (ui w)
                            (log w ++ [Net (SelectLastMessage
                                              (SessionRow.id r))])
                            (snd (serve E (SelectLastMessage
                                             (SessionRow.id r))
                                        (outside w))))).
    { now rewrite (bind_val _ (call_eq E (SelectLastMessage
                                            (SessionRow.id r)) w)). }
    rewrite (bind_val _ Hq).
    match goal with
    | |- context [bind (mapM _ rows) _ ?w1] =>
        destruct (IH w1) as (w' & Hr & Hu)
    end.
    rewrite (bind_val _ Hr).
    eexists; split; [reflexivity|exact Hu].
Qed.

Lemma combine_preview_answers (rows : list SessionRow.t) (b : B) :
  combine rows (map (fun ra => data_of (snd ra)) (preview_answers E rows b))
  = map (fun ra => (fst ra, data_of (snd ra))) (preview_answers E rows b).
Proof.
  revert b; induction rows as [|r rows IH]; intros b; simpl;
    [reflexivity|now rewrite IH].
Qed.

(** One callback, exactly: nothing when the answer has a row without
    content, the entry with the preview of the answer otherwise. *)
Lemma build_session_exact cur r d (w : World B) :
  exists o w',
    build_session E cur (r, d) w = (Val o, w')
    /\ ui w' = ui w
    /\ match preview d with
       | None => o = None
       | Some p =>
           exists s, o = Some s
                     /\ ChatSession.id s = SessionRow.id r
                     /\ ChatSession.lastMessage s = p
       end.
Proof.
  unfold build_session.
  destruct (preview d) as [p|] eqn:Hp.
  - destruct (SessionRow.created_at r) as [t|]; unfold bind, ret.
    + eexists _, _; split; [reflexivity|]; split; [reflexivity|].
      eexists; repeat split.
    + unfold new_Date; rewrite ask_eq.
      eexists _, _; split; [reflexivity|]; split; [reflexivity|].
      eexists; repeat split.
  - exists None, w; repeat split.
Qed.

(** All callbacks: one of them throws exactly when one of the answers has
    a row without content; otherwise the entries are as the specification
    describes them. *)
Lemma builds_exact cur (answers : list (SessionRow.t * PreviewAnswer)) :
  forall w : World B,
  exists built w',
    mapM (build_session E cur)
         (map (fun ra => (fst ra, data_of (snd ra))) answers) w
    = (Val built, w')
    /\ ui w' = ui w
    /\ if existsb (fun ra => no_content (snd ra)) answers
       then all_fulfilled built = None
       else exists l, all_fulfilled built = Some l
                      /\ Forall2 previewed answers l.
Proof.
  induction answers as [|[r a] answers IH]; intros w; simpl.
  - exists [], w; repeat split.
    exists []; split; [reflexivity|constructor].
  - destruct (build_session_exact cur r (data_of a) w)
      as (o & w1 & Hr & Hu & Ho).
    destruct (IH w1) as (built & w2 & Hr' & Hu' & Hb).
    rewrite (bind_val _ Hr), (bind_val _ Hr').
    eexists _, _; split; [reflexivity|]; split; [congruence|].
    rewrite no_content_preview.
    destruct (preview (data_of a)) as [p|] eqn:Hp; cbn [orb].
    + destruct Ho as (s & -> & Hi & Hl).
      destruct (existsb (fun ra => no_content (snd ra)) answers); simpl.
      * now rewrite Hb.
      * destruct Hb as (l & -> & Hall).
        exists (s :: l); split; [reflexivity|].
        constructor; [|exact Hall].
        apply previewed_intro; [exact Hi|congruence].
    + subst o; reflexivity.
Qed.

(** The [try] block, exactly: it throws when [fetch_throws] says so, and
    otherwise returns with the list replaced by one entry per row, each as
    the specification describes it for the answer its preview query
    got. *)
Lemma fetch_body_exact (u : User.t) (snap : State) (w : World B) :
  if fetch_throws E u (outside w)
  then exists e, fst (fetchChatSessions_body E (Some u) snap w) = Exc e
  else fst (fetchChatSessions_body E (Some u) snap w) = Val tt
       /\ Forall2 previewed
            (fetch_answers E u (outside w))
            (chatSessions
               (ui (run (fetchChatSessions_body E (Some u) snap) w))).
Proof.
  unfold fetch_throws, fetch_answers, fetched, run, fetchChatSessions_body.
  rewrite (bind_val _ (call_eq E (SelectSessions (User.id u)) w)).
  destruct (fst (serve E (SelectSessions (User.id u)) (outside w)))
    as [error|[[|r rows]|]].
  - eexists; reflexivity.
  - split; [reflexivity|constructor].
  - match goal with
    | |- context [bind (mapM _ (r :: rows)) _ ?w1] =>
        destruct (preview_queries_exact (r :: rows) w1) as (w2 & Hq & Hu)
    end.
    rewrite (bind_val _ Hq), combine_preview_answers.
    cbn [outside] in *.
    match goal with
    | |- context [preview_answers E (r :: rows) ?b] =>
        destruct (builds_exact (currentSessionId snap)
                    (preview_answers E (r :: rows) b) w2)
          as (built & w3 & Hb & Hu' & Hl)
    end.
    rewrite (bind_val _ Hb).
    destruct (existsb (fun ra => no_content (snd ra))
                (preview_answers E (r :: rows)
                   (snd (serve E (SelectSessions (User.id u)) (outside w))))).
    + rewrite Hl; eexists; reflexivity.
    + destruct Hl as (l & -> & Hall).
      split; [reflexivity|exact Hall].
  - split; [reflexivity|constructor].
Qed.

(** C2.  When the [try] block of a fetch does not throw, the list shown
    after it has one entry per row fetched, in the order of the rows, and
    the preview of each entry is what the specification says of the
    answer the preview query of that row got in this fetch: if the answer
    has a last message, with content [c], the preview is [c] itself when
    [c] has at most 30 characters, and the first 30 characters of [c]
    followed by an ellipsis when it has more; without a last message the
    preview is empty. *)
Theorem fetchChatSessions_preview
  (u : User.t) (snap : State) (w : World B) :
  fetch_throws E u (outside w) = false ->
  Forall2
    previewed
    (fetch_answers E u (outside w))
    (chatSessions (ui (run (fetchChatSessions E (Some u) snap) w))).
Proof.
  intros H.
  pose proof (fetch_body_exact u snap w) as Hc.
  rewrite H in Hc; destruct Hc as (Hv & Hall).
  unfold run, fetchChatSessions, try_catch in *.
  destruct (fetchChatSessions_body E (Some u) snap w) as [[[]|e] w'];
    [exact Hall|discriminate].
Qed.

(** C7, as the code has it.  The error notification of a fetch is shown
    exactly when its session query comes back with an error or the answer
    to one of its preview queries has a first row without content; it is
    then the last entry of the log, after the requests of the fetch, and
    every cell, the session list among them, is as it was.  An error of a
    preview query is no such failure: without a failure of the first
    kind the list is replaced by one entry per row and nothing is
    notified, and the entry of a row whose preview query came back with
    an error has an empty preview. *)
Theorem fetchChatSessions_failure
  (u : User.t) (snap : State) (w : World B) :
  log (run (fetchChatSessions E (Some u) snap) w)
  = log w
    ++ fetch_requests u (fetched E u (outside w))
    ++ (if fetch_throws E u (outside w)
        then [error_toast "Failed to load chat history."]
        else [])
  /\ (fetch_throws E u (outside w) = true ->
      ui (run (fetchChatSessions E (Some u) snap) w) = ui w)
  /\ (fetch_throws E u (outside w) = false ->
      exists l,
        ui (run (fetchChatSessions E (Some u) snap) w)
        = with_chatSessions (fun _ => l) (ui w)
        /\ Forall2 failed_preview_is_empty (fetch_answers E u (outside w)) l).
Proof.
  pose proof (fetch_body_exact u snap w) as Hx.
  pose proof (fetch_body_cases E (Some u) snap w) as Hc.
  pose proof (fetch_body_log E u snap w) as Hl.
  unfold run, fetchChatSessions, try_catch in *.
  destruct (fetch_throws E u (outside w)).
  - destruct Hx as (e & He).
    destruct (fetchChatSessions_body E (Some u) snap w) as [[[]|e'] w'];
      cbn [fst snd] in *; [discriminate|].
    split; [|split; [intros _; exact Hc|discriminate]].
    unfold toast, emit; cbn [snd log]; rewrite Hl.
    now rewrite <- app_assoc.
  - destruct Hx as (Hv & Hall).
    destruct (fetchChatSessions_body E (Some u) snap w) as [[[]|e'] w'];
      cbn [fst snd] in *; [|discriminate].
    split; [now rewrite app_nil_r|].
    split; [discriminate|intros _].
    destruct Hc as (l & Hu & _); exists l; split; [exact Hu|].
    rewrite Hu in Hall; cbn [chatSessions with_chatSessions] in Hall.
    eapply Forall2_impl; [|exact Hall].
    intros [r a] s (Hi & Hp); split; [exact Hi|].
    cbn [fst snd] in *; intros error ->; exact Hp.
Qed.

End FetchAnswers.

(* ===================================================================== *)
(** ** More on fetchChatSessions *)
(* ===================================================================== *)

Section FetchMore.

Variable B : Type.
Variable E : Env B.

(** X1.  With a user, a fetch issues the session query for the id of that
    user, then one preview query per row it got, in the order of the rows,
    and nothing else; the error notification follows exactly when its
    [try] block threw. *)
Theorem fetchChatSessions_requests (u : User.t) (snap : State) (w : World B) :
  log (run (fetchChatSessions E (Some u) snap) w)
  = log w
    ++ fetch_requests u (fetched E u (outside w))
    ++ match fst (fetchChatSessions_body E (Some u) snap w) with
       | Val _ => []
       | Exc _ => [error_toast "Failed to load chat history."]
       end.
Proof.
  pose proof (fetch_body_log E u snap w) as Hl.
  unfold run, fetchChatSessions, try_catch in *.
  destruct (fetchChatSessions_body E (Some u) snap w) as [[[]|e] w'];
    cbn [fst snd] in *.
  - now rewrite app_nil_r.
  - unfold toast, emit; cbn [snd log]; rewrite Hl.
    now rewrite <- app_assoc.
Qed.

(** X2.  Whatever the user and whatever the store answers, a fetch writes
    no cell but the session list: the view, the messages, the input, the
    loading flag and the pointer are as before. *)
Theorem fetchChatSessions_writes_list_only
  (user : option User.t) (snap : State) (w : World B) :
  view_of (ui (run (fetchChatSessions E user snap) w)) = view_of (ui w)
  /\ messages (ui (run (fetchChatSessions E user snap) w)) = messages (ui w)
  /\ input (ui (run (fetchChatSessions E user snap) w)) = input (ui w)
  /\ isLoading (ui (run (fetchChatSessions E user snap) w))
     = isLoading (ui w)
  /\ currentSessionId (ui (run (fetchChatSessions E user snap) w))
     = currentSessionId (ui w).
Proof.
  destruct (fetch_outcome E user snap w) as [->|(u & l & _ & -> & _)];
    repeat split.
Qed.

(** X3.  When the store has no session for the user (an empty list, or no
    data), the fetch empties the list without any notification: the only
    new entry of the log is the session query, and a history panel shows
    its placeholder. *)
Theorem fetchChatSessions_no_sessions
  (u : User.t) (snap : State) (w : World B)
  (data : option (list SessionRow.t)) :
  fst (serve E (SelectSessions (User.id u)) (outside w)) = inr data ->
  rows_of data = [] ->
  chatSessions (ui (run (fetchChatSessions E (Some u) snap) w)) = []
  /\ Shows.no_history (ui (run (fetchChatSessions E (Some u) snap) w)) = true
  /\ log (run (fetchChatSessions E (Some u) snap) w)
     = log w ++ [Net (SelectSessions (User.id u))].
Proof.
  intros Hd Hrows.
  unfold run, fetchChatSessions, try_catch, fetchChatSessions_body.
  rewrite (bind_val _ (call_eq E (SelectSessions (User.id u)) w)), Hd.
  destruct data as [[|r rows]|]; try discriminate; repeat split.
Qed.

(** X4.  When the fetch succeeds, the list has one entry per row fetched,
    in the order of the store; each entry has the id of its row, the title
    of its row or "Untitled Chat" when that title is null or empty, and is
    marked active exactly when its id is the pointer the handler was
    created with. *)
Theorem fetchChatSessions_entries (u : User.t) (snap : State) (w : World B) :
  fst (fetchChatSessions_body E (Some u) snap w) = Val tt ->
  Forall2
    (fun r s =>
       ChatSession.id s = SessionRow.id r
       /\ ChatSession.title s
          = match SessionRow.title r with
            | Some (c :: t) => c :: t
            | _ => Js.lit "Untitled Chat"
            end
       /\ (ChatSession.active s = true
           <-> currentSessionId snap = Some (SessionRow.id r)))
    (fetched E u (outside w))
    (chatSessions (ui (run (fetchChatSessions E (Some u) snap) w))).
Proof.
  intros H.
  pose proof (fetch_body_cases E (Some u) snap w) as Hc.
  unfold run, fetchChatSessions, try_catch.
  destruct (fetchChatSessions_body E (Some u) snap w) as [[[]|e] w'];
    simpl in H; [|discriminate].
  destruct Hc as (l & Hu & Hl); cbn [snd]; rewrite Hu.
  cbn [chatSessions with_chatSessions].
  eapply Forall2_impl; [|exact Hl].
  intros r s (Hi & Ht & Ha & _).
  split; [exact Hi|]; split.
  - rewrite Ht; unfold Js.or_else.
    now destruct (SessionRow.title r) as [[|c t]|].
  - unfold ChatSession.active; rewrite Ha.
    rewrite <- JsFacts.strict_eq_true.
    destruct (Js.strict_eq (SessionRow.id r) (currentSessionId snap));
      split; congruence.
Qed.

(** A preview is 33 code units long at most. *)
Lemma preview_length (d : option (list MessageRow.t)) (p : Js.str) :
  preview d = Some p -> Js.length p <= 33.
Proof.
  unfold preview, Js.length, Js.substring0.
  destruct d as [[|m rest]|]; try (intros [= <-]; simpl; lia).
  destruct (MessageRow.content m) as [c|]; [|discriminate].
  intros H.
  assert (Hp : p = firstn 30 c
                   ++ (if 30 <? List.length c then Js.lit "..."
                       else Js.empty)) by congruence.
  rewrite Hp, length_app.
  pose proof (firstn_le_length 30 c) as Hf.
  destruct (30 <? List.length c);
    [change (List.length (Js.lit "...")) with 3
    |change (List.length Js.empty) with 0]; lia.
Qed.

(** X5.  When the fetch succeeds, no preview of the list is longer than 33
    code units: 30 of the content and the three of the ellipsis. *)
Theorem fetchChatSessions_preview_bound
  (u : User.t) (snap : State) (w : World B) :
  fst (fetchChatSessions_body E (Some u) snap w) = Val tt ->
  Forall (fun s => Js.length (ChatSession.lastMessage s) <= 33)
         (chatSessions (ui (run (fetchChatSessions E (Some u) snap) w))).
Proof.
  intros H.
  pose proof (fetch_body_cases E (Some u) snap w) as Hc.
  unfold run, fetchChatSessions, try_catch.
  destruct (fetchChatSessions_body E (Some u) snap w) as [[[]|e] w'];
    simpl in H; [|discriminate].
  destruct Hc as (l & Hu & Hl); cbn [snd]; rewrite Hu.
  cbn [chatSessions with_chatSessions].
  apply Forall_forall; intros s Hin.
  destruct (built_source s Hl Hin) as (r & _ & _ & _ & _ & d & _ & Hp).
  exact (preview_length _ Hp).
Qed.

End FetchMore.

(* ===================================================================== *)
(** ** What every operation guarantees *)
(* ===================================================================== *)

Section EveryOperation.

Variable B : Type.
Variable E : Env B.

Lemma returns_ret : returns (ret (B:=B) tt).
Proof. intros w; now exists w. Qed.

Lemma returns_modify (f : State -> State) : returns (modify (B:=B) f).
Proof. intros w; eexists; reflexivity. Qed.

Lemma returns_toast t d v : returns (toast (B:=B) t d v).
Proof. intros w; eexists; reflexivity. Qed.

Lemma returns_bind (m k : M B unit) :
  returns m -> returns k -> returns (m ;; k).
Proof.
  intros Hm Hk w; destruct (Hm w) as (w1 & Hr).
  rewrite (bind_val _ Hr); apply Hk.
Qed.

Lemma returns_try_catch (m : M B unit) (h : Exn -> M B unit) :
  (forall e, returns (h e)) -> returns (try_catch m h).
Proof.
  intros Hh w; unfold try_catch.
  destruct (m w) as [[[]|e] w']; [now exists w'|apply Hh].
Qed.

Lemma returns_finally (m f : M B unit) :
  returns m -> returns f -> returns (finally m f).
Proof.
  intros Hm Hf w; unfold finally.
  destruct (Hm w) as (w1 & ->); destruct (Hf w1) as (w2 & ->).
  now exists w2.
Qed.

Lemma returns_fetch user snap : returns (fetchChatSessions E user snap).
Proof. intros w; apply fetch_returns. Qed.

(** X6.  No operation of the controller lets an exception out, whatever
    the user, the cells and the answers of the outside world: every
    failure ends in the [catch] block of the handler it happened in. *)
Theorem handlers_catch_everything
  (user : option User.t) (op : Op) (snap : State) :
  returns (handler E user op snap).
Proof.
  destruct op as [| |sid|sid|]; cbn [handler].
  - apply returns_fetch.
  - apply returns_try_catch; intros e; apply returns_toast.
  - apply returns_finally; [|apply returns_modify].
    apply returns_try_catch; intros e; apply returns_toast.
  - apply returns_finally; [|apply returns_modify].
    apply returns_try_catch; intros e.
    apply returns_bind; [apply returns_toast|apply returns_fetch].
  - unfold handleSend.
    destruct (negb (Js.truthy (Js.trim (input snap)))); [apply returns_ret|].
    apply returns_bind; [apply returns_modify|].
    apply returns_finally; [|apply returns_modify].
    apply returns_try_catch; intros e; apply returns_toast.
Qed.

(** Any property of the cells that the five setters of the conversation
    keep is kept by every operation. *)
Lemma handler_preserves (P : State -> Prop)
  (user : option User.t) (op : Op) (snap : State) :
  (forall f s, P s -> P (with_messages f s)) ->
  (forall f s, P s -> P (with_chatSessions f s)) ->
  (forall v s, P s -> P (with_input v s)) ->
  (forall v s, P s -> P (with_isLoading v s)) ->
  (forall v s, P s -> P (with_currentSessionId v s)) ->
  preserves P (handler E user op snap).
Proof.
  intros Hm Hl Hi Hk Hc.
  assert (Hf : forall us sn, preserves P (fetchChatSessions E us sn))
    by (intros; apply preserves_fetch; intros; now apply Hl).
  pose proof (Hf user snap) as Hfetch.
  destruct op as [| |sid|sid|]; cbn [handler];
    [exact Hfetch
    |unfold createNewChatSession
    |unfold loadChatSession
    |unfold deleteChatSession
    |unfold handleSend];
    frame_tac ltac:(intros;
                    first [apply Hm|apply Hl|apply Hi|apply Hk|apply Hc];
                    assumption).
Qed.

(** X7.  No operation of the controller touches the view: open or closed,
    maximized or not, history panel out or in, all three are as before. *)
Theorem operations_keep_the_view
  (user : option User.t) (op : Op) (w : World B) :
  view_of (ui (step E user op w)) = view_of (ui w).
Proof.
  apply (handler_preserves (fun s => view_of s = view_of (ui w)));
    try (intros ? s Hs; exact Hs); reflexivity.
Qed.

Lemma finally_stops_loading (m : M B unit) (w : World B) :
  isLoading (ui (run (finally m (setIsLoading false)) w)) = false.
Proof. unfold run, finally; now destruct (m w) as [r w']. Qed.

(** X8.  The spinner never stays: a load, a delete and a send of a
    non-blank input end with the loading flag off, on their success path
    and on every failure path; and no operation at all ends with the flag
    on when it started with the flag off. *)
Theorem loading_flag_is_reset
  (user : option User.t) (op : Op) (w : World B) :
  shows_progress op (ui w) = true \/ isLoading (ui w) = false ->
  isLoading (ui (step E user op w)) = false.
Proof.
  assert (Hkeep : forall m : M B unit,
             isLoading (ui w) = false ->
             preserves (fun s => isLoading s = false) m ->
             isLoading (ui (run m w)) = false)
    by (intros m H0 Hm; now apply Hm).
  unfold step, dispatch; fold (run (handler E user op (ui w)) w).
  destruct op as [| |sid|sid|]; cbn [handler shows_progress].
  - intros [H|H]; [discriminate|].
    apply Hkeep; [exact H|]; apply preserves_fetch; auto.
  - intros [H|H]; [discriminate|].
    apply Hkeep; [exact H|]; unfold createNewChatSession.
    frame_tac ltac:(intros s Hs; exact Hs).
  - intros _; apply finally_stops_loading.
  - intros _; apply finally_stops_loading.
  - destruct (blank (input (ui w))) eqn:Hb; cbn [negb].
    + intros [H|H]; [discriminate|].
      unfold handleSend; now rewrite JsFacts.truthy_trim, Hb.
    + intros _; unfold handleSend.
      rewrite JsFacts.truthy_trim, Hb; cbn [negb].
      rewrite run_bind; cbn [setInput modify].
      apply finally_stops_loading.
Qed.

End EveryOperation.

(* ===================================================================== *)
(** ** More on createNewChatSession and loadChatSession *)
(* ===================================================================== *)

Section CreateAndLoadMore.

Variable B : Type.
Variable E : Env B.

(** X9.  A creation that fails changes no cell.  Without a user nothing
    is asked of the outside world and the one new entry of the log is the
    notification that a login is needed; with a user whose insert the
    store refuses, the log gets the insert request and then the
    notification that the chat could not be created. *)
Theorem createNewChatSession_failure (user : option User.t) (w : World B) :
  (forall u,
     user = Some u ->
     exists error,
       fst (serve E (InsertSession (fst (uuid E (outside w)))
                                   (Js.lit "New Chat") (User.id u))
                  (snd (uuid E (outside w)))) = inl error) ->
  ui (step E user CreateSession w) = ui w
  /\ match user with
     | None =>
         log (step E user CreateSession w)
         = log w
           ++ [error_toast
                 "You need to be logged in to create a chat session."]
         /\ outside (step E user CreateSession w) = outside w
     | Some u =>
         log (step E user CreateSession w)
         = log w
           ++ [Net (InsertSession (fst (uuid E (outside w)))
                                  (Js.lit "New Chat") (User.id u));
               error_toast "Failed to create a new chat."]
     end.
Proof.
  intros Hfail; destruct user as [u|]; [|repeat split].
  destruct (Hfail u eq_refl) as (error & Herr).
  unfold step, dispatch, handler, createNewChatSession.
  cbv [try_catch bind setMessages updChatSessions setCurrentSessionId
       modify ret throw toast emit uuidv4 new_Date].
  rewrite (ask_eq (uuid E)); cbn [ui log outside].
  match goal with
  | |- context [call E ?r ?w1] => rewrite (call_eq E r w1)
  end.
  cbn [ui log outside]; rewrite Herr; cbn [snd log ui].
  split; [reflexivity|now rewrite <- app_assoc].
Qed.

(** X10.  With a user, creating a session issues exactly one request, the
    insert of the generated id with the title "New Chat" under the id of
    the user, and notifies exactly when the store refuses the insert: an
    accepted insert shows nothing. *)
Theorem createNewChatSession_request (u : User.t) (w : World B) :
  log (step E (Some u) CreateSession w)
  = log w
    ++ Net (InsertSession (fst (uuid E (outside w))) (Js.lit "New Chat")
                          (User.id u))
    :: match fst (serve E (InsertSession (fst (uuid E (outside w)))
                                         (Js.lit "New Chat") (User.id u))
                        (snd (uuid E (outside w)))) with
       | inl _ => [error_toast "Failed to create a new chat."]
       | inr _ => []
       end.
Proof.
  unfold step, dispatch, handler, createNewChatSession.
  cbv [try_catch bind setMessages updChatSessions setCurrentSessionId
       modify ret throw toast emit uuidv4 new_Date].
  rewrite (ask_eq (uuid E)); cbn [ui log outside].
  match goal with
  | |- context [call E ?r ?w1] => rewrite (call_eq E r w1)
  end.
  cbn [ui log outside].
  match goal with
  | |- context [match ?r with inl _ => _ | inr _ => _ end] =>
      destruct r as [error|data]
  end.
  - cbn [snd log ui]; now rewrite <- app_assoc.
  - rewrite (ask_eq (clock E)); reflexivity.
Qed.

(** X11.  A load issues exactly one request, the message query of the
    session asked for, and notifies exactly when that query fails; in
    that case the messages shown, the input and the pointer are as before
    and the loading flag is off. *)
Theorem loadChatSession_request
  (user : option User.t) (w : World B) (sessionId : Js.str) :
  log (step E user (LoadSession sessionId) w)
  = log w
    ++ Net (SelectMessages sessionId)
    :: match fst (serve E (SelectMessages sessionId) (outside w)) with
       | inl _ => [error_toast "Failed to load chat messages."]
       | inr _ => []
       end
  /\ (forall error,
        fst (serve E (SelectMessages sessionId) (outside w)) = inl error ->
        messages (ui (step E user (LoadSession sessionId) w))
          = messages (ui w)
        /\ input (ui (step E user (LoadSession sessionId) w)) = input (ui w)
        /\ currentSessionId (ui (step E user (LoadSession sessionId) w))
           = currentSessionId (ui w)
        /\ isLoading (ui (step E user (LoadSession sessionId) w)) = false).
Proof.
  unfold step, dispatch, handler, loadChatSession.
  cbv [finally try_catch bind setIsLoading updChatSessions setMessages
       setCurrentSessionId modify ret throw toast emit].
  cbn [ui log outside].
  rewrite (call_eq E (SelectMessages sessionId)); cbn [ui log outside].
  destruct (fst (serve E (SelectMessages sessionId) (outside w)))
    as [error|data].
  - cbn [snd log ui]; split; [now rewrite <- app_assoc|].
    intros _ _; repeat split.
  - split; [|discriminate].
    destruct data as [rows|]; [|reflexivity].
    match goal with
    | |- context [mapM _ rows ?w1] =>
        destruct (mute_mapM (format_message E) rows
                    (mute_format_message E) w1) as (ms & w2 & Hm & _ & Hl)
    end.
    rewrite Hm; cbn [snd log]; exact Hl.
Qed.

(** X12.  A load, whether its query succeeds or fails, leaves the list
    what it was but for the flags: the same entries in the same order,
    with their ids, titles, previews and timestamps, each one marked
    active exactly when its id is the one asked for. *)
Theorem loadChatSession_reflags
  (user : option User.t) (w : World B) (sessionId : Js.str) :
  Forall2 (reflagged sessionId)
          (chatSessions (ui w))
          (chatSessions (ui (step E user (LoadSession sessionId) w))).
Proof.
  assert (Hm : forall l, Forall2 (reflagged sessionId) l (mark sessionId l)).
  { induction l as [|s l IH]; simpl; constructor; [|exact IH].
    repeat split. }
  destruct (load_cells E user w sessionId)
    as [(data & ms & _ & -> & _)|(error & _ & ->)]; apply Hm.
Qed.

End CreateAndLoadMore.

(* ===================================================================== *)
(** ** More on deleteChatSession *)
(* ===================================================================== *)

Section DeleteMore.

Variable B : Type.
Variable E : Env B.

(** The handler in full: the optimistic removal, the request and its
    notification, then the re-fetch of the same render, then the flag. *)
Lemma delete_world (user : option User.t) (w : World B) (id : Js.str) :
  exists wmid,
    ui wmid = cleared_if_current id (ui w)
                (with_chatSessions (without id)
                   (with_isLoading true (ui w)))
    /\ log wmid =
         log w
         ++ [Net (InvokeDelete id);
             match fst (serve E (InvokeDelete id) (outside w)) with
             | inl _ => error_toast "Failed to delete chat. Please try again."
             | inr _ => success_toast "Chat deleted successfully."
             end]
    /\ outside wmid = snd (serve E (InvokeDelete id) (outside w))
    /\ ui (step E user (DeleteSession id) w) =
         with_isLoading false
           (ui (run (fetchChatSessions E user (ui w)) wmid))
    /\ log (step E user (DeleteSession id) w) =
         log (run (fetchChatSessions E user (ui w)) wmid).
Proof.
  unfold step, dispatch, handler, deleteChatSession, cleared_if_current, run.
  cbv [finally try_catch bind setIsLoading updChatSessions setMessages
       setCurrentSessionId modify ret throw toast emit].
  cbn [ui log outside].
  destruct (Js.strict_eq id (currentSessionId (ui w)));
    rewrite (call_eq E (InvokeDelete id)); cbn [ui log outside];
    destruct (fst (serve E (InvokeDelete id) (outside w))) as [error|[]];
    cbn [fst snd ui log outside];
    match goal with
    | |- context [fetchChatSessions E user (ui w) ?w1] =>
        exists w1; destruct (fetch_returns E user (ui w) w1) as (w2 & ->)
    end;
    cbn [ui log outside snd]; rewrite <- app_assoc; repeat split.
Qed.

(** X13.  A delete starts with exactly one deletion request, for the id
    asked for, and one notification: the success one when the command is
    acknowledged, the error one when it is not.  With a user the requests
    of the re-fetch follow, and after them the notification of the
    re-fetch when it fails. *)
Theorem deleteChatSession_requests
  (u : User.t) (w : World B) (id : Js.str) :
  exists tail,
    log (step E (Some u) (DeleteSession id) w)
    = log w
      ++ [Net (InvokeDelete id);
          match fst (serve E (InvokeDelete id) (outside w)) with
          | inl _ => error_toast "Failed to delete chat. Please try again."
          | inr _ => success_toast "Chat deleted successfully."
          end]
      ++ fetch_requests u
           (fetched E u (snd (serve E (InvokeDelete id) (outside w))))
      ++ tail
    /\ (tail = [] \/ tail = [error_toast "Failed to load chat history."]).
Proof.
  destruct (delete_world (Some u) w id) as (wmid & _ & Hl & Ho & _ & ->).
  pose proof (fetch_body_log E u (ui w) wmid) as Hb.
  unfold run, fetchChatSessions, try_catch in *.
  destruct (fetchChatSessions_body E (Some u) (ui w) wmid) as [[[]|e] w'];
    cbn [snd] in *.
  - exists []; split; [|now left].
    rewrite Hb, Hl, Ho, app_nil_r; now rewrite <- app_assoc.
  - eexists; split; [|right; reflexivity].
    unfold toast, emit; cbn [snd log].
    rewrite Hb, Hl, Ho; now rewrite <- !app_assoc.
Qed.

(** X14.  Deleting a session that is not the one of the pointer leaves the
    conversation alone: the messages shown, the pointer and the input are
    as before, whatever the outside world answers. *)
Theorem deleteChatSession_of_another_session
  (user : option User.t) (w : World B) (id : Js.str) :
  currentSessionId (ui w) <> Some id ->
  messages (ui (step E user (DeleteSession id) w)) = messages (ui w)
  /\ currentSessionId (ui (step E user (DeleteSession id) w))
     = currentSessionId (ui w)
  /\ input (ui (step E user (DeleteSession id) w)) = input (ui w).
Proof.
  intros Hne.
  destruct (delete_world user w id) as (wmid & Hu & _ & _ & -> & _).
  assert (Hs : Js.strict_eq id (currentSessionId (ui w)) = false).
  { destruct (Js.strict_eq id (currentSessionId (ui w))) eqn:Hs;
      [|reflexivity].
    apply JsFacts.strict_eq_true in Hs; contradiction. }
  unfold cleared_if_current in Hu; rewrite Hs in Hu.
  destruct (fetch_outcome E user (ui w) wmid) as [->|(u & l & _ & -> & _)];
    rewrite Hu; repeat split.
Qed.

(** X15.  When the re-fetch cannot replace the list, because there is no
    user or because its session query fails, the list after a delete is
    the list before without the entries of the deleted id, the others in
    their order. *)
Theorem deleteChatSession_keeps_the_removal
  (user : option User.t) (w : World B) (id : Js.str) :
  (forall u,
     user = Some u ->
     exists error,
       fst (serve E (SelectSessions (User.id u))
                  (snd (serve E (InvokeDelete id) (outside w))))
       = inl error) ->
  chatSessions (ui (step E user (DeleteSession id) w))
  = filter (fun s => negb (Js.eqb (ChatSession.id s) id))
           (chatSessions (ui w)).
Proof.
  intros Hfail.
  destruct (delete_world user w id) as (wmid & Hu & _ & Ho & -> & _).
  assert (Hkeep : ui (run (fetchChatSessions E user (ui w)) wmid) = ui wmid).
  { unfold run, fetchChatSessions, try_catch.
    pose proof (fetch_body_cases E user (ui w) wmid) as Hc.
    destruct user as [u|].
    - destruct (Hfail u eq_refl) as (error & Herr); rewrite <- Ho in Herr.
      pose proof (sessions_query_error E u (ui w) wmid Herr) as Hthrow.
      destruct (fetchChatSessions_body E (Some u) (ui w) wmid)
        as [[[]|e] w']; [discriminate|exact Hc].
    - reflexivity. }
  rewrite Hkeep, Hu; unfold cleared_if_current.
  now destruct (Js.strict_eq id (currentSessionId (ui w))).
Qed.

End DeleteMore.

(* ===================================================================== *)
(** ** More on handleSend *)
(* ===================================================================== *)

Section SendMore.

Variable B : Type.
Variable E : Env B.

(** The handler in full, for a user and a non-blank input: the optimistic
    updates, the one request with the conversation so far and the new
    message, and then either the failure path or the answer and the
    re-fetch of the same render. *)
Lemma send_world (u : User.t) (w : World B) :
  blank (input (ui w)) = false ->
  exists msgs t0 b,
    map ApiMessage.text msgs
      = map Message.content (messages (ui w)) ++ [Js.trim (input (ui w))]
    /\ map ApiMessage.sender msgs
       = map (fun m => sender_name (Message.type m)) (messages (ui w))
         ++ [Js.lit "user"]
    /\ match fst (serve E
                   (InvokeChat msgs Js.empty
                      (sending_session (currentSessionId (ui w))
                                       (fst (uuid E (outside w))))
                      (User.id u)) b) with
       | inr (Some a) =>
           exists t2 wmid,
             ui wmid =
               with_messages (fun prev => prev ++ [Message.mk Message.bot a t2])
                 (pending_send (ui w)
                    (sending_session (currentSessionId (ui w))
                                     (fst (uuid E (outside w)))) t0)
             /\ log wmid =
                  log w
                  ++ [Net (InvokeChat msgs Js.empty
                             (sending_session (currentSessionId (ui w))
                                              (fst (uuid E (outside w))))
                             (User.id u))]
             /\ ui (step E (Some u) Send w) =
                  with_isLoading false
                    (ui (run (fetchChatSessions E (Some u) (ui w)) wmid))
             /\ log (step E (Some u) Send w) =
                  log (run (fetchChatSessions E (Some u) (ui w)) wmid)
       | _ =>
           ui (step E (Some u) Send w) =
             with_isLoading false
               (pending_send (ui w)
                  (sending_session (currentSessionId (ui w))
                                   (fst (uuid E (outside w)))) t0)
           /\ log (step E (Some u) Send w) =
                log w
                ++ [Net (InvokeChat msgs Js.empty
                           (sending_session (currentSessionId (ui w))
                                            (fst (uuid E (outside w))))
                           (User.id u));
                    error_toast "Failed to get a response. Please try again."]
       end.
Proof.
  intros Hb.
  unfold step, dispatch, handler, handleSend, pending_send, sent_at, run.
  rewrite JsFacts.truthy_trim, Hb; cbn [negb].
  destruct (currentSessionId (ui w)) as [[|c r]|] eqn:Hp;
    cbn [sending_session];
    cbv [finally try_catch bind setInput updMessages setIsLoading
         setCurrentSessionId modify ret throw toast emit uuidv4 new_Date
         Date_now];
    repeat (rewrite ask_eq; cbn [ui log outside fst snd]);
    match goal with
    | |- context [mapM (format_for_api E) ?l ?w1] =>
        destruct (prior_messages_spec E l w1)
          as (prior & w2 & Hm & Hu & Hl & Ht & Hs & _)
    end;
    rewrite Hm;
    repeat (rewrite ask_eq; cbn [ui log outside fst snd]);
    match goal with
    | |- context [call E (InvokeChat ?m ?x ?s ?i) ?w1] =>
        rewrite (call_eq E (InvokeChat m x s i) w1);
        exists m; eexists; exists (outside w1);
        (split; [rewrite map_app, Ht; reflexivity|]);
        (split; [rewrite map_app, Hs; reflexivity|]);
        cbn [ui log outside fst snd]
    end;
    match goal with
    | |- match ?r with inl _ => _ | inr _ => _ end =>
        destruct r as [error|[answer|]]
    end;
    cbn [ui log outside fst snd];
    try (rewrite Hu, Hl; cbn [ui log];
         unfold with_isLoading, with_messages, with_currentSessionId,
           with_input;
         cbn [isOpen isMaximized isHistoryOpen messages chatSessions input
              isLoading currentSessionId];
         rewrite ?Hp; rewrite <- ?app_assoc; split; reflexivity);
    repeat (rewrite ask_eq; cbn [ui log outside fst snd]);
    match goal with
    | |- context [fetchChatSessions E (Some u) (ui w) ?w3] =>
        eexists; exists w3;
        destruct (fetch_returns E (Some u) (ui w) w3) as (w4 & ->)
    end;
    cbn [ui log outside fst snd]; rewrite Hu, Hl; cbn [ui log];
    unfold with_isLoading, with_messages, with_currentSessionId, with_input;
    cbn [isOpen isMaximized isHistoryOpen messages chatSessions input
         isLoading currentSessionId];
    rewrite ?Hp; repeat split.
Qed.

(** What a fetch adds to the log, in short. *)
Lemma fetch_log_shape (u : User.t) (snap : State) (w : World B) :
  exists tail,
    log (run (fetchChatSessions E (Some u) snap) w)
    = log w ++ fetch_requests u (fetched E u (outside w)) ++ tail
    /\ (tail = [] \/ tail = [error_toast "Failed to load chat history."]).
Proof.
  pose proof (fetch_body_log E u snap w) as Hl.
  unfold run, fetchChatSessions, try_catch in *.
  destruct (fetchChatSessions_body E (Some u) snap w) as [[[]|e] w'];
    cbn [fst snd] in *.
  - exists []; split; [now rewrite app_nil_r|now left].
  - eexists; split; [|right; reflexivity].
    unfold toast, emit; cbn [snd log]; rewrite Hl.
    now rewrite <- app_assoc.
Qed.

Lemma no_chat_request_in_fetch (u : User.t) (rows : list SessionRow.t) :
  filter is_chat_request (fetch_requests u rows) = [].
Proof.
  unfold fetch_requests; cbn [filter is_chat_request].
  induction rows as [|r rows IH]; [reflexivity|exact IH].
Qed.

(** X16.  For a user and a non-blank input, a send puts the user message,
    with the trimmed input as its content, right after the messages shown,
    whatever the outside world answers; the messages before it are
    untouched, and what follows it is nothing or the one answer of the
    bot.  The pointer ends on the session the send went to: its own when
    it had one, the generated one otherwise. *)
Theorem handleSend_appends_the_message (u : User.t) (w : World B) :
  blank (input (ui w)) = false ->
  exists t rest,
    messages (ui (step E (Some u) Send w))
    = messages (ui w) ++ sent_at (input (ui w)) t :: rest
    /\ (rest = [] \/ exists a t2, rest = [Message.mk Message.bot a t2])
    /\ currentSessionId (ui (step E (Some u) Send w))
       = Some (sending_session (currentSessionId (ui w))
                               (fst (uuid E (outside w)))).
Proof.
  intros Hb.
  destruct (send_world u w Hb) as (msgs & t0 & b & _ & _ & H).
  exists t0.
  match type of H with
  | match ?r with inl _ => _ | inr _ => _ end =>
      destruct r as [error|[a|]]
  end.
  - destruct H as (Hu & _); rewrite Hu.
    exists []; repeat split; now left.
  - destruct H as (t2 & wmid & Hmid & _ & Hu & _); rewrite Hu.
    exists [Message.mk Message.bot a t2].
    destruct (fetch_outcome E (Some u) (ui w) wmid)
      as [->|(u' & l & _ & -> & _)]; rewrite Hmid;
      cbn [messages currentSessionId with_isLoading with_messages
           with_chatSessions pending_send with_currentSessionId with_input];
      rewrite <- app_assoc; repeat split; right; now exists a, t2.
  - destruct H as (Hu & _); rewrite Hu.
    exists []; repeat split; now left.
Qed.

(** X17.  For a user and a non-blank input, a send issues exactly one
    request to the answering function, before anything else it logs.  The
    request carries the messages that were shown, in their order, with
    their contents and senders, then the new message as the last one, from
    the user; its context is empty, its session is the session the send
    goes to and its user id is the id of the user. *)
Theorem handleSend_request (u : User.t) (w : World B) :
  blank (input (ui w)) = false ->
  exists msgs tail,
    log (step E (Some u) Send w)
    = log w
      ++ Net (InvokeChat msgs Js.empty
                (sending_session (currentSessionId (ui w))
                                 (fst (uuid E (outside w))))
                (User.id u))
      :: tail
    /\ map ApiMessage.text msgs
       = map Message.content (messages (ui w)) ++ [Js.trim (input (ui w))]
    /\ map ApiMessage.sender msgs
       = map (fun m => sender_name (Message.type m)) (messages (ui w))
         ++ [Js.lit "user"]
    /\ filter is_chat_request tail = [].
Proof.
  intros Hb.
  destruct (send_world u w Hb) as (msgs & t0 & b & Ht & Hs & H).
  exists msgs.
  match type of H with
  | match ?r with inl _ => _ | inr _ => _ end =>
      destruct r as [error|[a|]]
  end.
  - destruct H as (_ & Hl); rewrite Hl.
    eexists; split; [reflexivity|]; repeat split; assumption.
  - destruct H as (t2 & wmid & _ & Hmid & _ & Hl); rewrite Hl.
    destruct (fetch_log_shape u (ui w) wmid) as (tail & -> & Htail).
    rewrite Hmid, <- app_assoc.
    eexists; split; [reflexivity|]; repeat split; try assumption.
    rewrite filter_app, no_chat_request_in_fetch.
    now destruct Htail as [->| ->].
  - destruct H as (_ & Hl); rewrite Hl.
    eexists; split; [reflexivity|]; repeat split; assumption.
Qed.

(** The prior messages of the request, exactly. *)
Lemma prior_exact (ms : list Message.t) (w : World B) :
  mapM (format_for_api E) ms w
  = (Val (fst (prior_for_api E ms (outside w))),
     mkWorld (ui w) (log w) (snd (prior_for_api E ms (outside w)))).
Proof.
  revert w; induction ms as [|m ms IH]; intros w;
    cbn [mapM prior_for_api fst snd].
  - now destruct w.
  - cbv [bind format_for_api Date_now Math_random_toString ret].
    repeat (rewrite ask_eq; cbn [ui log outside fst snd]).
    rewrite IH; reflexivity.
Qed.

Lemma sending_session_fresh (p : option Js.str) (fresh : Js.str) :
  no_session p = true -> sending_session p fresh = fresh.
Proof. destruct p as [[|c r]|]; [reflexivity|discriminate|reflexivity]. Qed.

(** The handler again, by the answer its own request gets: on an error or
    null data, the failure path; on data with an answer, the answer and
    the re-fetch of the same render. *)
Lemma send_exact (u : User.t) (w : World B) :
  blank (input (ui w)) = false ->
  match chat_answer E u (ui w) (outside w) with
  | inr (Some a) =>
      exists t0 t2 wmid,
        ui wmid =
          with_messages (fun prev => prev ++ [Message.mk Message.bot a t2])
            (pending_send (ui w)
               (sending_session (currentSessionId (ui w))
                                (fst (uuid E (outside w)))) t0)
        /\ log wmid = log w ++ [Net (send_request E u (ui w) (outside w))]
        /\ ui (step E (Some u) Send w) =
             with_isLoading false
               (ui (run (fetchChatSessions E (Some u) (ui w)) wmid))
        /\ log (step E (Some u) Send w) =
             log (run (fetchChatSessions E (Some u) (ui w)) wmid)
  | _ =>
      exists t0,
        ui (step E (Some u) Send w) =
          with_isLoading false
            (pending_send (ui w)
               (sending_session (currentSessionId (ui w))
                                (fst (uuid E (outside w)))) t0)
        /\ log (step E (Some u) Send w) =
             log w
             ++ [Net (send_request E u (ui w) (outside w));
                 error_toast "Failed to get a response. Please try again."]
  end.
Proof.
  intros Hb.
  unfold step, dispatch, handler, handleSend, pending_send, sent_at, run,
    chat_answer, send_request, send_messages.
  rewrite JsFacts.truthy_trim, Hb; cbn [negb].
  destruct (currentSessionId (ui w)) as [[|c r]|] eqn:Hp;
    cbn [sending_session no_session];
    cbv [finally try_catch bind setInput updMessages setIsLoading
         setCurrentSessionId modify ret throw toast emit uuidv4 new_Date
         Date_now];
    repeat (rewrite ask_eq; cbn [ui log outside fst snd]);
    rewrite prior_exact; cbn [ui log outside fst snd];
    repeat (rewrite ask_eq; cbn [ui log outside fst snd]);
    match goal with
    | |- context [call E (InvokeChat ?m ?x ?s ?i) ?w1] =>
        rewrite (call_eq E (InvokeChat m x s i) w1);
        cbn [ui log outside fst snd]
    end;
    match goal with
    | |- match ?r with inl _ => _ | inr _ => _ end =>
        destruct r as [error|[answer|]]
    end;
    cbn [ui log outside fst snd];
    try (eexists; cbn [ui log];
         unfold with_isLoading, with_messages, with_currentSessionId,
           with_input;
         cbn [isOpen isMaximized isHistoryOpen messages chatSessions input
              isLoading currentSessionId];
         rewrite ?Hp; rewrite <- ?app_assoc; split; reflexivity);
    repeat (rewrite ask_eq; cbn [ui log outside fst snd]);
    match goal with
    | |- context [fetchChatSessions E (Some u) (ui w) ?w3] =>
        eexists; eexists; exists w3;
        destruct (fetch_returns E (Some u) (ui w) w3) as (w4 & ->)
    end;
    cbn [ui log outside fst snd];
    unfold with_isLoading, with_messages, with_currentSessionId, with_input;
    cbn [isOpen isMaximized isHistoryOpen messages chatSessions input
         isLoading currentSessionId];
    rewrite ?Hp; repeat split.
Qed.

(** C9, as the code has it.  A send that starts without an active session
    generates an id and makes it the pointer before its request goes out.
    When that request comes back with an error, or with null data, the
    error notification is shown, right after the request in the log, and
    the loading flag is reset, and nothing is rolled back: the pointer is
    still the generated id and the user message is still at the end of
    the message list. *)
Theorem handleSend_failure_keeps_generated_id (u : User.t) (w : World B) :
  blank (input (ui w)) = false ->
  no_session (currentSessionId (ui w)) = true ->
  (forall a, chat_answer E u (ui w) (outside w) <> inr (Some a)) ->
  currentSessionId (ui (step E (Some u) Send w)) =
    Some (fst (uuid E (outside w)))
  /\ (exists t,
        messages (ui (step E (Some u) Send w)) =
          messages (ui w) ++ [sent_at (input (ui w)) t])
  /\ log (step E (Some u) Send w) =
       log w
       ++ [Net (send_request E u (ui w) (outside w));
           error_toast "Failed to get a response. Please try again."]
  /\ isLoading (ui (step E (Some u) Send w)) = false.
Proof.
  intros Hb Hnone Hdown.
  pose proof (send_exact u w Hb) as H.
  rewrite (@sending_session_fresh _ _ Hnone) in H.
  destruct (chat_answer E u (ui w) (outside w)) as [error|[a|]];
    [|destruct (Hdown a eq_refl)|];
    destruct H as (t0 & -> & ->);
    (split; [reflexivity|]);
    (split; [exists t0; reflexivity|]);
    split; reflexivity.
Qed.

(** X18.  When the request of a send by a user comes back with data that
    carries an answer, the send ends with the user message and then the
    answer, as a message of the bot, after the messages shown; it shows no
    notification of its own and goes on to re-fetch the session list of
    the user. *)
Theorem handleSend_success (u : User.t) (w : World B) (a : Js.str) :
  blank (input (ui w)) = false ->
  chat_answer E u (ui w) (outside w) = inr (Some a) ->
  (exists t t2,
      messages (ui (step E (Some u) Send w))
      = messages (ui w)
        ++ [sent_at (input (ui w)) t; Message.mk Message.bot a t2])
  /\ exists b tail,
       log (step E (Some u) Send w)
       = log w
         ++ Net (send_request E u (ui w) (outside w))
         :: fetch_requests u (fetched E u b) ++ tail
       /\ (tail = [] \/ tail = [error_toast "Failed to load chat history."]).
Proof.
  intros Hb Hans.
  pose proof (send_exact u w Hb) as H.
  rewrite Hans in H.
  destruct H as (t0 & t2 & wmid & Hmid & Hlmid & Hu & Hl); split.
  - exists t0, t2; rewrite Hu.
    destruct (fetch_outcome E (Some u) (ui w) wmid)
      as [->|(u' & l & _ & -> & _)]; rewrite Hmid;
      cbn [messages with_isLoading with_messages with_chatSessions
           pending_send with_currentSessionId with_input];
      now rewrite <- app_assoc.
  - destruct (fetch_log_shape u (ui w) wmid) as (tail & Hf & Htail).
    exists (outside wmid), tail.
    split; [|exact Htail].
    rewrite Hl, Hf, Hlmid, <- app_assoc; reflexivity.
Qed.

Lemma trimStart_snoc (l : Js.str) (c : Js.code_unit) :
  Js.is_whitespace c = false ->
  exists l2, Js.trimStart (l ++ [c]) = l2 ++ [c].
Proof.
  intros Hc; induction l as [|x l IH]; simpl.
  - rewrite Hc; now exists [].
  - destruct (Js.is_whitespace x); [exact IH|now exists (x :: l)].
Qed.

(** The trimmed form of a non-blank string starts and ends with a
    character that is not white space. *)
Lemma trim_ends_visible (s : Js.str) :
  blank s = false ->
  visible (first_unit (Js.trim s)) /\ visible (last_unit (Js.trim s)).
Proof.
  intros H.
  destruct (JsFacts.trimStart_visible s H) as (c & r & Hs & Hc).
  unfold Js.trim, Js.trimEnd, first_unit, last_unit; rewrite Hs; split.
  - destruct (trimStart_snoc (rev r) c Hc) as (l2 & Hl2).
    cbn [rev]; rewrite Hl2, rev_app_distr; simpl.
    now exists c.
  - rewrite rev_involutive.
    assert (Hb : blank (rev (c :: r)) = false).
    { rewrite JsFacts.blank_rev; simpl; now rewrite Hc. }
    destruct (JsFacts.trimStart_visible _ Hb) as (c' & r' & -> & Hc').
    now exists c'.
Qed.

(** X19.  The message a send appends is never blank and carries no white
    space around it: its content starts and ends with a character that
    is not white space, however the input was padded. *)
Theorem handleSend_message_is_trimmed (u : User.t) (w : World B) :
  blank (input (ui w)) = false ->
  exists m rest,
    messages (ui (step E (Some u) Send w)) = messages (ui w) ++ m :: rest
    /\ Message.type m = Message.user
    /\ visible (first_unit (Message.content m))
    /\ visible (last_unit (Message.content m)).
Proof.
  intros Hb.
  destruct (send_world u w Hb) as (msgs & t0 & b & _ & _ & H).
  exists (sent_at (input (ui w)) t0).
  destruct (trim_ends_visible _ Hb) as [Hfirst Hlast].
  match type of H with
  | match ?r with inl _ => _ | inr _ => _ end =>
      destruct r as [error|[a|]]
  end.
  - destruct H as (Hu & _); rewrite Hu.
    exists []; repeat split; assumption.
  - destruct H as (t2 & wmid & Hmid & _ & Hu & _); rewrite Hu.
    exists [Message.mk Message.bot a t2].
    destruct (fetch_outcome E (Some u) (ui w) wmid)
      as [->|(u' & l & _ & -> & _)]; rewrite Hmid;
      cbn [messages with_isLoading with_messages with_chatSessions
           pending_send with_currentSessionId with_input];
      rewrite <- app_assoc; repeat split; assumption.
  - destruct H as (Hu & _); rewrite Hu.
    exists []; repeat split; assumption.
Qed.

End SendMore.

(* ===================================================================== *)
(** ** The view *)
(* ===================================================================== *)

Section ViewFacts.

Variable B : Type.
Variable E : Env B.

(** X20.  The handlers of the view stay in the view: toggling, clicking
    the backdrop or the chat button changes no cell of the conversation,
    typing changes the input and nothing else, and none of them logs a
    notification or a request or consults the outside world. *)
Theorem view_events_keep_the_conversation (ev : ViewEvent) (w : World B) :
  log (view_step ev w) = log w
  /\ outside (view_step ev w) = outside w
  /\ messages (ui (view_step ev w)) = messages (ui w)
  /\ chatSessions (ui (view_step ev w)) = chatSessions (ui w)
  /\ isLoading (ui (view_step ev w)) = isLoading (ui w)
  /\ currentSessionId (ui (view_step ev w)) = currentSessionId (ui w)
  /\ input (ui (view_step ev w))
     = match ev with
       | Type_ value => value
       | _ => input (ui w)
       end.
Proof.
  unfold view_step, dispatch, view_handler.
  destruct ev; try (repeat split; fail).
  unfold chatButton_onClick; destruct (isOpen (ui w)); repeat split.
Qed.

(** X21.  Toggling twice is no toggling: maximize and restore, or history
    out and in, each with its render in between, give back the world as
    it was. *)
Theorem toggles_are_involutions (w : World B) :
  view_step ToggleMaximize (view_step ToggleMaximize w) = w
  /\ view_step ToggleHistory (view_step ToggleHistory w) = w.
Proof.
  destruct w as [[o m h ms l i k p] lg b].
  unfold view_step, dispatch, view_handler, toggleMaximize, toggleHistory,
    updIsMaximized, setIsHistoryOpen, modify, with_isMaximized,
    with_isHistoryOpen; cbn.
  rewrite !negb_involutive; split; reflexivity.
Qed.

(** X22.  The chat button closes an open widget and keeps the size and the
    history panel as they were; it opens a closed one at normal size with
    the history panel in, whatever they were before.  So two presses in a
    row leave the widget open or closed as it was, but always at normal
    size with the history panel in. *)
Theorem chat_button_resets_on_open (w : World B) :
  view_of (ui (view_step ClickChatButton w))
  = (if isOpen (ui w)
     then (false, isMaximized (ui w), isHistoryOpen (ui w))
     else (true, false, false))
  /\ view_of (ui (view_step ClickChatButton (view_step ClickChatButton w)))
     = (isOpen (ui w), false, false).
Proof.
  unfold view_step, dispatch, view_handler, chatButton_onClick.
  destruct (isOpen (ui w)) eqn:Ho; cbn; rewrite ?Ho; split; reflexivity.
Qed.

(** X23.  The history is shown in one place at most, side panel or
    dropdown, and it follows the size: maximizing turns a shown dropdown
    into the side panel and restoring turns the side panel into the
    dropdown; a click on the backdrop takes the backdrop and the side
    panel away and leaves an open history as the dropdown. *)
Theorem history_panel_follows_the_size (w : World B) :
  (Shows.history_sidebar (ui w) && Shows.history_dropdown (ui w))%bool
    = false
  /\ Shows.history_sidebar (ui (view_step ToggleMaximize w))
     = Shows.history_dropdown (ui w)
  /\ Shows.history_dropdown (ui (view_step ToggleMaximize w))
     = Shows.history_sidebar (ui w)
  /\ Shows.backdrop (ui (view_step ClickBackdrop w)) = false
  /\ Shows.history_sidebar (ui (view_step ClickBackdrop w)) = false
  /\ Shows.history_dropdown (ui (view_step ClickBackdrop w))
     = (Shows.window (ui w) && isHistoryOpen (ui w))%bool.
Proof.
  destruct w as [[o m h ms l i k p] lg b].
  unfold Shows.history_sidebar, Shows.history_dropdown, Shows.backdrop,
    Shows.window, view_step, dispatch, view_handler, toggleMaximize,
    backdrop_onClick; cbn.
  destruct o, m, h; repeat split.
Qed.

(** X24.  A press on the chat button that closes the widget, or that finds
    no user, asks the outside world nothing: no request, no notification,
    and the conversation, session list included, is as it was. *)
Theorem press_chat_button_quietly (user : option User.t) (w : World B) :
  isOpen (ui w) = true \/ user = None ->
  log (press_chat_button E user w) = log w
  /\ outside (press_chat_button E user w) = outside w
  /\ conversation_of (ui (press_chat_button E user w))
     = conversation_of (ui w).
Proof.
  unfold press_chat_button, dispatch, sessions_effect, chatButton_onClick.
  intros [H| ->].
  - rewrite H; repeat split.
  - destruct (isOpen (ui w)); cbn; rewrite ?andb_false_r; repeat split.
Qed.

(** X25.  A press on the chat button that opens the widget for a user
    shows it at normal size with the history panel in, and fetches the
    sessions of that user: the session query and the preview queries are
    the requests it issues; the messages, the input and the pointer are
    as they were. *)
Theorem press_chat_button_fetches (u : User.t) (w : World B) :
  isOpen (ui w) = false ->
  view_of (ui (press_chat_button E (Some u) w)) = (true, false, false)
  /\ (exists tail,
        log (press_chat_button E (Some u) w)
        = log w ++ fetch_requests u (fetched E u (outside w)) ++ tail
        /\ (tail = [] \/ tail = [error_toast "Failed to load chat history."]))
  /\ messages (ui (press_chat_button E (Some u) w)) = messages (ui w)
  /\ input (ui (press_chat_button E (Some u) w)) = input (ui w)
  /\ currentSessionId (ui (press_chat_button E (Some u) w))
     = currentSessionId (ui w).
Proof.
  intros H.
  unfold press_chat_button, dispatch at 1, sessions_effect.
  unfold dispatch, chatButton_onClick; rewrite H.
  cbv [bind setIsOpen setIsMaximized setIsHistoryOpen modify].
  cbn [snd ui log outside isOpen with_isOpen with_isMaximized
       with_isHistoryOpen andb].
  match goal with
  | |- context [fetchChatSessions E (Some u) ?sn ?w1] =>
      fold (run (fetchChatSessions E (Some u) sn) w1);
      destruct (fetch_log_shape E u sn w1) as (tail & Hl & Htail);
      destruct (fetch_outcome E (Some u) sn w1)
        as [Hu|(u' & l & _ & Hu & _)]
  end;
    rewrite Hu, Hl; (split; [reflexivity|]);
    (split; [exists tail; split; [reflexivity|exact Htail]|]);
    repeat split.
Qed.

(** X26.  An enabled send button means a real send: when the button is
    not disabled, nothing is loading and the input is not blank, so with
    a user the message is appended. *)
Theorem enabled_send_button_sends (u : User.t) (w : World B) :
  Shows.send_disabled (ui w) = false ->
  isLoading (ui w) = false
  /\ exists t rest,
       messages (ui (step E (Some u) Send w))
       = messages (ui w) ++ sent_at (input (ui w)) t :: rest.
Proof.
  unfold Shows.send_disabled; rewrite JsFacts.truthy_trim, negb_involutive.
  intros H; apply orb_false_iff in H as [Hb Hk].
  split; [exact Hk|].
  destruct (send_world E u w Hb) as (msgs & t0 & b & _ & _ & H).
  exists t0.
  match type of H with
  | match ?r with inl _ => _ | inr _ => _ end =>
      destruct r as [error|[a|]]
  end.
  - destruct H as (Hu & _); rewrite Hu; now exists [].
  - destruct H as (t2 & wmid & Hmid & _ & Hu & _); rewrite Hu.
    exists [Message.mk Message.bot a t2].
    destruct (fetch_outcome E (Some u) (ui w) wmid)
      as [->|(u' & l & _ & -> & _)]; rewrite Hmid;
      cbn [messages with_isLoading with_messages with_chatSessions
           pending_send with_currentSessionId with_input];
      now rewrite <- app_assoc.
  - destruct H as (Hu & _); rewrite Hu; now exists [].
Qed.

(** X27.  After the delete of the session of the pointer, the conversation
    area is back to its welcome: no message is shown and nothing is
    loading, whether the deletion and the re-fetch worked or not. *)
Theorem deleting_the_open_session_shows_welcome
  (user : option User.t) (w : World B) (id : Js.str) :
  currentSessionId (ui w) = Some id ->
  Shows.welcome (ui (step E user (DeleteSession id) w)) = true.
Proof.
  intros Hcur.
  destruct (delete_world E user w id) as (wmid & Hu & _ & _ & -> & _).
  unfold cleared_if_current in Hu.
  rewrite Hcur in Hu; cbn [Js.strict_eq] in Hu.
  rewrite JsFacts.eqb_refl in Hu.
  destruct (fetch_outcome E user (ui w) wmid) as [->|(u & l & _ & -> & _)];
    rewrite Hu; reflexivity.
Qed.

End ViewFacts.

(* ===================================================================== *)
(** ** More concrete runs *)
(* ===================================================================== *)

Section MoreRuns.

Lemma fetchChatSessions_no_sessions_witness :
  chatSessions
    (ui (run (fetchChatSessions (Script.env fresh_account) (Some alice)
                                (ui chatting)) chatting)) = []
  /\ Shows.no_history
       (ui (run (fetchChatSessions (Script.env fresh_account) (Some alice)
                                   (ui chatting)) chatting)) = true
  /\ log (run (fetchChatSessions (Script.env fresh_account) (Some alice)
                                 (ui chatting)) chatting)
     = log chatting ++ [Net (SelectSessions (User.id alice))].
Proof.
  apply (fetchChatSessions_no_sessions (Script.env fresh_account) alice
           (ui chatting) chatting (data := Some [])); reflexivity.
Defined.

Lemma fetchChatSessions_entries_witness :
  Forall2
    (fun r s =>
       ChatSession.id s = SessionRow.id r
       /\ ChatSession.title s
          = match SessionRow.title r with
            | Some (c :: t) => c :: t
            | _ => Js.lit "Untitled Chat"
            end
       /\ (ChatSession.active s = true
           <-> currentSessionId (ui chatting) = Some (SessionRow.id r)))
    (fetched up alice (outside chatting))
    (chatSessions
       (ui (run (fetchChatSessions up (Some alice) (ui chatting)) chatting))).
Proof. apply fetchChatSessions_entries; reflexivity. Defined.

Lemma fetchChatSessions_preview_bound_witness :
  Forall (fun s => Js.length (ChatSession.lastMessage s) <= 33)
         (chatSessions
            (ui (run (fetchChatSessions up (Some alice) (ui chatting))
                     chatting))).
Proof. apply fetchChatSessions_preview_bound; reflexivity. Defined.

Lemma loading_flag_is_reset_witness :
  isLoading (ui (step down (Some alice) (LoadSession (Js.lit "s2")) chatting))
  = false.
Proof. apply loading_flag_is_reset; left; reflexivity. Defined.

Lemma createNewChatSession_failure_witness :
  ui (step (Script.env insert_refused) (Some alice) CreateSession chatting)
  = ui chatting
  /\ log (step (Script.env insert_refused) (Some alice) CreateSession
               chatting)
     = log chatting
       ++ [Net (InsertSession
                  (fst (uuid (Script.env insert_refused) (outside chatting)))
                  (Js.lit "New Chat") (User.id alice));
           error_toast "Failed to create a new chat."].
Proof.
  apply (@createNewChatSession_failure Z (Script.env insert_refused)
           (Some alice) chatting).
  intros u _; eexists; reflexivity.
Defined.

Lemma loadChatSession_request_witness :
  messages (ui (step down (Some alice) (LoadSession (Js.lit "s2")) chatting))
    = messages (ui chatting)
  /\ input (ui (step down (Some alice) (LoadSession (Js.lit "s2")) chatting))
     = input (ui chatting)
  /\ currentSessionId
       (ui (step down (Some alice) (LoadSession (Js.lit "s2")) chatting))
     = currentSessionId (ui chatting)
  /\ isLoading
       (ui (step down (Some alice) (LoadSession (Js.lit "s2")) chatting))
     = false.
Proof.
  apply (proj2 (loadChatSession_request down (Some alice) chatting
                  (Js.lit "s2"))
           (Script.failure "timeout")).
  reflexivity.
Defined.

Lemma deleteChatSession_of_another_session_witness :
  messages (ui (step up (Some alice) (DeleteSession (Js.lit "s2")) chatting))
    = messages (ui chatting)
  /\ currentSessionId
       (ui (step up (Some alice) (DeleteSession (Js.lit "s2")) chatting))
     = currentSessionId (ui chatting)
  /\ input (ui (step up (Some alice) (DeleteSession (Js.lit "s2")) chatting))
     = input (ui chatting).
Proof.
  apply deleteChatSession_of_another_session; simpl; discriminate.
Defined.

Lemma deleteChatSession_keeps_the_removal_witness :
  chatSessions
    (ui (step off (Some alice) (DeleteSession (Js.lit "s1")) chatting))
  = filter (fun s => negb (Js.eqb (ChatSession.id s) (Js.lit "s1")))
           (chatSessions (ui chatting)).
Proof.
  apply deleteChatSession_keeps_the_removal.
  intros u _; eexists; reflexivity.
Defined.

Lemma handleSend_appends_the_message_witness :
  exists t rest,
    messages (ui (step up (Some alice) Send (typing " hello ")))
    = messages (ui (typing " hello "))
      ++ sent_at (input (ui (typing " hello "))) t :: rest
    /\ (rest = [] \/ exists a t2, rest = [Message.mk Message.bot a t2])
    /\ currentSessionId (ui (step up (Some alice) Send (typing " hello ")))
       = Some (sending_session
                 (currentSessionId (ui (typing " hello ")))
                 (fst (uuid up (outside (typing " hello "))))).
Proof. apply handleSend_appends_the_message; reflexivity. Defined.

Lemma handleSend_request_witness :
  exists msgs tail,
    log (step up (Some alice) Send maximized)
    = log maximized
      ++ Net (InvokeChat msgs Js.empty
                (sending_session (currentSessionId (ui maximized))
                                 (fst (uuid up (outside maximized))))
                (User.id alice))
      :: tail
    /\ map ApiMessage.text msgs
       = map Message.content (messages (ui maximized))
         ++ [Js.trim (input (ui maximized))]
    /\ map ApiMessage.sender msgs
       = map (fun m => sender_name (Message.type m)) (messages (ui maximized))
         ++ [Js.lit "user"]
    /\ filter is_chat_request tail = [].
Proof. apply handleSend_request; reflexivity. Defined.

Lemma handleSend_success_witness :
  (exists t t2,
      messages (ui (step up (Some alice) Send maximized))
      = messages (ui maximized)
        ++ [sent_at (input (ui maximized)) t;
            Message.mk Message.bot (Js.lit "hello") t2])
  /\ exists b tail,
       log (step up (Some alice) Send maximized)
       = log maximized
         ++ Net (send_request up alice (ui maximized) (outside maximized))
         :: fetch_requests alice (fetched up alice b) ++ tail
       /\ (tail = [] \/ tail = [error_toast "Failed to load chat history."]).
Proof. apply handleSend_success; reflexivity. Defined.

(** *** C9 *)

Lemma handleSend_failure_keeps_generated_id_witness :
  currentSessionId (ui (step down (Some alice) Send (typing "hello"))) =
    Some (fst (uuid down (outside (typing "hello"))))
  /\ (exists t,
        messages (ui (step down (Some alice) Send (typing "hello"))) =
          messages (ui (typing "hello"))
          ++ [sent_at (input (ui (typing "hello"))) t])
  /\ log (step down (Some alice) Send (typing "hello")) =
       log (typing "hello")
       ++ [Net (send_request down alice (ui (typing "hello"))
                             (outside (typing "hello")));
           error_toast "Failed to get a response. Please try again."]
  /\ isLoading (ui (step down (Some alice) Send (typing "hello"))) = false.
Proof.
  apply handleSend_failure_keeps_generated_id.
  - reflexivity.
  - reflexivity.
  - intros a; vm_compute; discriminate.
Defined.

(** *** C2 *)

Lemma fetchChatSessions_preview_witness :
  fetch_throws up alice (outside chatting) = false
  /\ Forall2 previewed
       (fetch_answers up alice (outside chatting))
       (chatSessions
          (ui (run (fetchChatSessions up (Some alice) (ui chatting))
                   chatting))).
Proof.
  split; [reflexivity|].
  apply fetchChatSessions_preview; reflexivity.
Defined.

(** *** C7 *)

Lemma fetchChatSessions_failure_witness :
  (ui (run (fetchChatSessions off (Some alice) (ui chatting)) chatting)
   = ui chatting
   /\ log (run (fetchChatSessions off (Some alice) (ui chatting)) chatting)
      = log chatting
        ++ [Net (SelectSessions (User.id alice));
            error_toast "Failed to load chat history."])
  /\ (ui (run (fetchChatSessions (Script.env null_content) (Some alice)
                                 (ui chatting)) chatting)
      = ui chatting
      /\ log (run (fetchChatSessions (Script.env null_content) (Some alice)
                                     (ui chatting)) chatting)
         = log chatting
           ++ [Net (SelectSessions (User.id alice));
               Net (SelectLastMessage (Js.lit "s1"));
               error_toast "Failed to load chat history."])
  /\ exists l,
       ui (run (fetchChatSessions (Script.env previews_down) (Some alice)
                                  (ui chatting)) chatting)
       = with_chatSessions (fun _ => l) (ui chatting)
       /\ Forall2 failed_preview_is_empty
            (fetch_answers (Script.env previews_down) alice
                           (outside chatting)) l.
Proof.
  destruct (fetchChatSessions_failure off alice (ui chatting) chatting)
    as (Hl1 & Hu1 & _).
  destruct (fetchChatSessions_failure (Script.env null_content) alice
              (ui chatting) chatting)
    as (Hl2 & Hu2 & _).
  destruct (fetchChatSessions_failure (Script.env previews_down) alice
              (ui chatting) chatting)
    as (_ & _ & Hl3).
  split; [split; [apply Hu1; reflexivity|exact Hl1]|].
  split; [split; [apply Hu2; reflexivity|exact Hl2]|].
  apply Hl3; reflexivity.
Defined.

Lemma handleSend_message_is_trimmed_witness :
  exists m rest,
    messages (ui (step down (Some alice) Send maximized))
    = messages (ui maximized) ++ m :: rest
    /\ Message.type m = Message.user
    /\ visible (first_unit (Message.content m))
    /\ visible (last_unit (Message.content m)).
Proof. apply handleSend_message_is_trimmed; reflexivity. Defined.

Lemma press_chat_button_quietly_witness :
  log (press_chat_button up (Some alice) maximized) = log maximized
  /\ outside (press_chat_button up (Some alice) maximized) = outside maximized
  /\ conversation_of (ui (press_chat_button up (Some alice) maximized))
     = conversation_of (ui maximized).
Proof. apply press_chat_button_quietly; left; reflexivity. Defined.

Lemma press_chat_button_fetches_witness :
  view_of (ui (press_chat_button up (Some alice) closed)) = (true, false, false)
  /\ (exists tail,
        log (press_chat_button up (Some alice) closed)
        = log closed ++ fetch_requests alice (fetched up alice (outside closed))
          ++ tail
        /\ (tail = [] \/ tail = [error_toast "Failed to load chat history."]))
  /\ messages (ui (press_chat_button up (Some alice) closed))
     = messages (ui closed)
  /\ input (ui (press_chat_button up (Some alice) closed)) = input (ui closed)
  /\ currentSessionId (ui (press_chat_button up (Some alice) closed))
     = currentSessionId (ui closed).
Proof. apply press_chat_button_fetches; reflexivity. Defined.

Lemma enabled_send_button_sends_witness :
  isLoading (ui maximized) = false
  /\ exists t rest,
       messages (ui (step up (Some alice) Send maximized))
       = messages (ui maximized)
         ++ sent_at (input (ui maximized)) t :: rest.
Proof. apply enabled_send_button_sends; reflexivity. Defined.

Lemma deleting_the_open_session_shows_welcome_witness :
  Shows.welcome
    (ui (step down (Some alice) (DeleteSession (Js.lit "s1")) chatting))
  = true.
Proof. apply deleting_the_open_session_shows_welcome; reflexivity. Defined.

End MoreRuns.
